(** * pdb: the MSF container of a PDB file (src/pdb.go)

    A shallow embedding of the Go package [pdb]: the MSF header (superblock)
    parser, the page reader, the free page map, the stream table (stream
    directory) reader and parser, the stream reassembler and the stream
    dispatcher of [ParseFile].

    Conventions of the embedding.
    - Go's [int] is 64 bits wide (amd64, arm64); [int] arithmetic wraps.
    - A Go function can return normally, return a non-nil [error], or panic;
      the three are the constructors of [result].
    - A Go slice is a window on a backing array: it has a length and a
      capacity, and re-slicing is checked against the capacity.
    - Allocation never fails for lack of memory. *)

From Stdlib Require Import ZArith List Lia Bool Strings.Byte Strings.String.
From stdpp Require Import base list.
Import ListNotations.
Local Open Scope Z_scope.

(** ** Bytes and little-endian integers *)

Definition byte_to_Z (b : byte) : Z := Z.of_N (Byte.to_N b).

Definition Z_to_byte (z : Z) : byte :=
  match Byte.of_N (Z.to_N z) with
  | Some b => b
  | None => x00
  end.

(** [binary.LittleEndian]: the first byte is the least significant one. *)
Fixpoint le_decode (bs : list byte) : Z :=
  match bs with
  | [] => 0
  | b :: bs' => byte_to_Z b + 256 * le_decode bs'
  end.

Fixpoint le_encode (width : nat) (z : Z) : list byte :=
  match width with
  | O => []
  | S w => Z_to_byte (z mod 256) :: le_encode w (z / 256)
  end.

(** Byte-for-byte comparison, Go's [==] on strings. *)
Fixpoint bytes_eqb (a b : list byte) : bool :=
  match a, b with
  | [], [] => true
  | x :: a', y :: b' => Byte.eqb x y && bytes_eqb a' b'
  | _, _ => false
  end.

(** Two's complement reading of a 32-bit pattern, Go's [int32]. *)
Definition to_int32 (u : Z) : Z := if u <? 2 ^ 31 then u else u - 2 ^ 32.

Definition decode_uint16 (bs : list byte) : Z := le_decode bs.
Definition decode_uint32 (bs : list byte) : Z := le_decode bs.
Definition decode_int32 (bs : list byte) : Z := to_int32 (le_decode bs).

Definition encode_uint16 (z : Z) : list byte := le_encode 2 z.
Definition encode_uint32 (z : Z) : list byte := le_encode 4 z.
Definition encode_int32 (z : Z) : list byte := le_encode 4 (z mod 2 ^ 32).

Definition is_uint16 (z : Z) : Prop := 0 <= z < 2 ^ 16.
Definition is_uint32 (z : Z) : Prop := 0 <= z < 2 ^ 32.
Definition is_int32 (z : Z) : Prop := - 2 ^ 31 <= z < 2 ^ 31.

(** Go's [int] on a 64-bit platform: results of [*] and [+] wrap around. *)
Definition wrap_int (z : Z) : Z := (z + 2 ^ 63) mod 2 ^ 64 - 2 ^ 63.
Definition int_mul (a b : Z) : Z := wrap_int (a * b).
Definition int_add (a b : Z) : Z := wrap_int (a + b).
Definition is_int (z : Z) : Prop := - 2 ^ 63 <= z < 2 ^ 63.

(** ** Outcomes of a Go call *)

(** The [error] values the package can return: [io.EOF] and
    [io.ErrUnexpectedEOF] from [binary.Read], and the
    "invalid MSF signature" error of [parseMSFHeader].  [errors.WithStack]
    only attaches a stack trace and is the identity here. *)
Inductive error : Type :=
  | ErrEOF
  | ErrUnexpectedEOF
  | ErrInvalidMSFSignature.

(** Run-time panics of the Go runtime. *)
Inductive panic : Type :=
  | PanicSliceBounds     (* slice bounds out of range *)
  | PanicIndex           (* index out of range *)
  | PanicMakeSliceLen    (* makeslice: len out of range *)
  | PanicNilDeref        (* nil pointer dereference *)
  | PanicNegativeShift.  (* negative shift amount *)

Inductive result (A : Type) : Type :=
  | Ok (a : A)
  | Err (e : error)
  | Panic (p : panic).

Arguments Ok {A} a.
Arguments Err {A} e.
Arguments Panic {A} p.

Definition bind {A B : Type} (m : result A) (k : A -> result B) : result B :=
  match m with
  | Ok a => k a
  | Err e => Err e
  | Panic p => Panic p
  end.

Notation "'do' x <- m ; k" := (bind m (fun x => k))
  (at level 10, x pattern, m at level 100, k at level 200).

(** ** Go slices *)

(** A slice shows the first [len] elements of its window on the backing array
    ([live]); the window reaches on to the capacity ([spare]). *)
Record slice (A : Type) : Type := mkSlice { live : list A; spare : list A }.

Arguments mkSlice {A} live spare.
Arguments live {A} s.
Arguments spare {A} s.

Definition len {A} (s : slice A) : Z := Z.of_nat (length (live s)).
Definition cap {A} (s : slice A) : Z := Z.of_nat (length (live s ++ spare s)).

(** The nil slice ([var s []byte]). *)
Definition nil_slice {A} : slice A := mkSlice [] [].

(** [s[lo:hi]]: for a slice operand the bounds are checked against the
    capacity, [0 <= lo <= hi <= cap(s)]. *)
Definition reslice {A} (s : slice A) (lo hi : Z) : result (slice A) :=
  if (0 <=? lo) && (lo <=? hi) && (hi <=? cap s) then
    Ok (mkSlice (take (Z.to_nat (hi - lo)) (drop (Z.to_nat lo) (live s ++ spare s)))
                (drop (Z.to_nat hi) (live s ++ spare s)))
  else Panic PanicSliceBounds.

(** [s[i]]: checked against the length. *)
Definition index {A} (l : list A) (i : Z) : result A :=
  if (0 <=? i) && (i <? Z.of_nat (length l)) then
    match l !! Z.to_nat i with
    | Some a => Ok a
    | None => Panic PanicIndex
    end
  else Panic PanicIndex.

(** What the language leaves to the implementation. *)
Inductive nonfinite : Type := PosInf | NegInf | NaN.

Record GoRuntime : Type := mkRuntime {
  (** [append_slack oldcap needed]: how many elements beyond [needed] the
      array allocated by a growing [append] has. *)
  append_slack : nat -> nat -> nat;
  (** the [int] a non-finite [float64] converts to. *)
  int_of_nonfinite : nonfinite -> Z
}.

(** [append(s, xs...)] on a byte slice: in place when the capacity suffices,
    otherwise into a new zeroed array. *)
Definition append (rt : GoRuntime) (s : slice byte) (xs : list byte) : slice byte :=
  if (length (live s) + length xs <=? length (live s ++ spare s))%nat then
    mkSlice (live s ++ xs) (drop (length xs) (spare s))
  else
    mkSlice (live s ++ xs)
            (repeat x00 (append_slack rt (length (live s ++ spare s))
                                         (length (live s) + length xs))).

(** The largest allocation of the runtime on a 64-bit platform ([maxAlloc],
    48 address bits). *)
Definition maxAlloc : Z := 2 ^ 48.

(** [make([]T, n)] for elements of [elemSize] bytes: panics on a negative
    length and on one that asks for more than [maxAlloc] bytes. *)
Definition make_len (elemSize n : Z) : result nat :=
  if (n <? 0) || (maxAlloc <? elemSize * n) then Panic PanicMakeSliceLen
  else Ok (Z.to_nat n).

(** [int(math.Ceil(float64(a) / float64(b)))] for [int32] operands.  For
    [b <> 0] the quotient of two 32-bit integers, when it is not an integer,
    lies at least [1/|b|] away from the nearest integer, more than half a
    unit in the last place of a [float64], so the rounded quotient has the
    same ceiling as the exact one.  For [b = 0] the quotient is an infinity
    or a NaN, and its conversion to [int] is implementation-dependent. *)
Definition ceil_div (a b : Z) : Z := - ((- a) / b).

Definition npages_of (rt : GoRuntime) (size pageSize : Z) : Z :=
  if pageSize =? 0 then
    int_of_nonfinite rt
      (if 0 <? size then PosInf else if size <? 0 then NegInf else NaN)
  else ceil_div size pageSize.

(** ** Readers *)

(** A [bytes.Reader] is the bytes not yet read. *)
Definition reader : Type := list byte.

Definition NewReader (s : slice byte) : reader := live s.

(** [io.ReadFull] of [n] bytes, as [binary.Read] calls it: nothing is read and
    nothing fails for [n = 0]; [io.EOF] when no byte is left,
    [io.ErrUnexpectedEOF] when some but too few are. *)
Definition read_full (n : Z) (r : reader) : result (list byte * reader) :=
  if n <=? Z.of_nat (length r) then
    Ok (take (Z.to_nat n) r, drop (Z.to_nat n) r)
  else
    match r with
    | [] => Err ErrEOF
    | _ :: _ => Err ErrUnexpectedEOF
    end.

(** ** Data model *)

(** [msfSignature]: 37 characters of text, CR LF, and five more bytes. *)
Definition msfSignature : list byte :=
  list_byte_of_string "Microsoft C/C++ program database 2.00"
    ++ [x0d; x0a; x1a; x4a; x47; x00; x00].

(** [StreamInfo] (SI_PERSIST): two [int32]. *)
Record StreamInfo : Type := mkStreamInfo {
  Size : Z;
  Unknown : Z
}.

(** [MSFHeader]. *)
Record MSFHeader : Type := mkMSFHeader {
  Magic : list byte;          (* [44]byte *)
  PageSize : Z;               (* int32 *)
  FreePageMapPageNum : Z;     (* uint16 *)
  NPages : Z;                 (* uint16 *)
  StreamTblInfo : StreamInfo;
  PageNumMap : list Z         (* []uint16 *)
}.

(** [FreePageMap]; the struct is named [FPM] here, after its reference, because
    the field of [File] has the name [FreePageMap]. *)
Record FPM : Type := mkFPM {
  PageBits : slice byte
}.

(** [StreamTable]. *)
Record StreamTable : Type := mkStreamTable {
  NStreams : Z;                   (* uint32 *)
  StreamInfos : list StreamInfo;
  PageNumMaps : list (list Z)     (* [][]uint16 *)
}.

(** [StreamIDPDBStream]. *)
Definition StreamIDPDBStream : Z := 1.

Section Pdb.

(** The decoded PDB stream ([*PDBStream]), the one type behind the [Stream]
    interface. *)
Variable PDBStream : Type.

(** [File]; the three pointer fields are [None] when nil. *)
Record File : Type := mkFile {
  FileHdr : option MSFHeader;
  FreePageMap : option FPM;
  StreamTbl : option StreamTable;
  Streams : list PDBStream;
  Data : slice byte
}.

Variable rt : GoRuntime.

(** ** Page reader *)

(** [readPage]. *)
Definition readPage (file : File) (pageNum : Z) : result (slice byte) :=
  match FileHdr file with
  | None => Panic PanicNilDeref
  | Some hdr =>
      let pageSize := PageSize hdr in
      let start := int_mul pageNum pageSize in
      let end_ := int_add start pageSize in
      reslice (Data file) start end_
  end.

(** ** MSF header *)

(** [binary.Read] into a [[]uint16] of [n] elements that have been read as
    [2 * n] bytes. *)
Fixpoint decode_uint16s (n : nat) (bs : list byte) : list Z :=
  match n with
  | O => []
  | S n' => decode_uint16 (take 2 bs) :: decode_uint16s n' (drop 2 bs)
  end.

Definition decode_StreamInfo (bs : list byte) : StreamInfo :=
  mkStreamInfo (decode_int32 (take 4 bs)) (decode_int32 (take 4 (drop 4 bs))).

Fixpoint decode_StreamInfos (n : nat) (bs : list byte) : list StreamInfo :=
  match n with
  | O => []
  | S n' => decode_StreamInfo (take 8 bs) :: decode_StreamInfos n' (drop 8 bs)
  end.

(** [parseMSFHeader]; the reader after the call is returned with the header. *)
Definition parseMSFHeader (r : reader) : result (MSFHeader * reader) :=
  (* Magic. *)
  do (magic, r) <- read_full 44 r;
  if negb (bytes_eqb magic msfSignature) then Err ErrInvalidMSFSignature else
  (* PageSize. *)
  do (b, r) <- read_full 4 r;
  let pageSize := decode_int32 b in
  (* FreePageMapPageNum. *)
  do (b, r) <- read_full 2 r;
  let freePageMapPageNum := decode_uint16 b in
  (* NPages. *)
  do (b, r) <- read_full 2 r;
  let nPages := decode_uint16 b in
  (* StreamTblInfo. *)
  do (b, r) <- read_full 8 r;
  let streamTblInfo := decode_StreamInfo b in
  (* PageNumMap. *)
  let streamTblNPages := npages_of rt (Size streamTblInfo) pageSize in
  do n <- make_len 2 streamTblNPages;
  do (b, r) <- read_full (2 * streamTblNPages) r;
  Ok (mkMSFHeader magic pageSize freePageMapPageNum nPages streamTblInfo
                  (decode_uint16s n b), r).

(** ** Free page map *)

(** [IsFree]: [/] and [%] truncate toward zero; a negative shift count
    panics. *)
Definition IsFree (fpm : FPM) (pageNum : Z) : result bool :=
  let i := Z.quot pageNum 8 in
  let j := Z.rem pageNum 8 in
  if j <? 0 then Panic PanicNegativeShift else
  let mask := Z.shiftl 1 j mod 256 in
  do b <- index (live (PageBits fpm)) i;
  Ok (negb (Z.land (byte_to_Z b) mask =? 0)).

(** ** Stream table *)

(** The loop of [readStreamTable]: [todo] iterations are left, the next one
    has index [streamPageNum]. *)
Fixpoint readStreamTable_loop (file : File) (pageNumMap : list Z)
    (todo : nat) (streamPageNum : Z) (streamTblData : slice byte)
    : result (slice byte) :=
  match todo with
  | O => Ok streamTblData
  | S todo' =>
      do pageNum <- index pageNumMap streamPageNum;
      do pageData <- readPage file pageNum;
      readStreamTable_loop file pageNumMap todo' (streamPageNum + 1)
        (append rt streamTblData (live pageData))
  end.

(** [readStreamTable]. *)
Definition readStreamTable (file : File) : result (slice byte) :=
  match FileHdr file with
  | None => Panic PanicNilDeref
  | Some hdr =>
      let streamTblNPages :=
        npages_of rt (Size (StreamTblInfo hdr)) (PageSize hdr) in
      do streamTblData <-
        readStreamTable_loop file (PageNumMap hdr) (Z.to_nat streamTblNPages)
          0 nil_slice;
      reslice streamTblData 0 (Size (StreamTblInfo hdr))
  end.

(** The loop of [parseStreamTable] over the stream infos. *)
Fixpoint parsePageNumMaps (file : File) (infos : list StreamInfo) (r : reader)
    : result (list (list Z) * reader) :=
  match infos with
  | [] => Ok ([], r)
  | info :: infos' =>
      match FileHdr file with
      | None => Panic PanicNilDeref
      | Some hdr =>
          let streamNPages := npages_of rt (Size info) (PageSize hdr) in
          do n <- make_len 2 streamNPages;
          do (b, r) <- read_full (2 * streamNPages) r;
          do (maps, r) <- parsePageNumMaps file infos' r;
          Ok (decode_uint16s n b :: maps, r)
      end
  end.

(** [parseStreamTable].  The two [make] calls take the [uint32] stream count
    as length, which is never negative and never asks for more than
    [maxAlloc]. *)
Definition parseStreamTable (file : File) (r : reader)
    : result (StreamTable * reader) :=
  (* NStreams. *)
  do (b, r) <- read_full 4 r;
  let nStreams := decode_uint32 b in
  (* StreamInfos. *)
  do (b, r) <- read_full (8 * nStreams) r;
  let streamInfos := decode_StreamInfos (Z.to_nat nStreams) b in
  (* PageNumMaps. *)
  do (maps, r) <- parsePageNumMaps file streamInfos r;
  Ok (mkStreamTable nStreams streamInfos maps, r).

(** ** Stream reassembler *)

(** The loop of [readStreamData] over the page number map. *)
Fixpoint readStreamData_loop (file : File) (pageNumMap : list Z)
    (streamData : slice byte) : result (slice byte) :=
  match pageNumMap with
  | [] => Ok streamData
  | pageNum :: rest =>
      do pageData <- readPage file pageNum;
      readStreamData_loop file rest (append rt streamData (live pageData))
  end.

(** [readStreamData]. *)
Definition readStreamData (file : File) (streamNum : Z) : result (slice byte) :=
  match StreamTbl file with
  | None => Panic PanicNilDeref
  | Some tbl =>
      do streamInfo <- index (StreamInfos tbl) streamNum;
      do pageNumMap <- index (PageNumMaps tbl) streamNum;
      do streamData <- readStreamData_loop file pageNumMap nil_slice;
      reslice streamData 0 (Size streamInfo)
  end.

(** ** Stream dispatcher *)

(** [parsePDBStream] is declared in another file of the package.  The
    dispatcher hands it a reader on the stream data and appends what it
    returns; it is taken here as a function of the file and the reader that
    leaves the file as it is. *)
Variable parsePDBStream : File -> reader -> result PDBStream.

(** [parseStream].  [Ok file'] is a nil error with the file as the call left
    it; [Err e] is a non-nil error, returned before the file is touched.
    [StreamID(streamNum)] converts to [uint32]. *)
Definition parseStream (file : File) (streamNum : Z) : result File :=
  do streamData <- readStreamData file streamNum;
  if streamNum mod 2 ^ 32 =? StreamIDPDBStream then
    do pdbStream <- parsePDBStream file (NewReader streamData);
    Ok (mkFile (FileHdr file) (FreePageMap file) (StreamTbl file)
               (Streams file ++ [pdbStream]) (Data file))
  else Ok file.

(** The loop of [ParseFile] over the stream numbers: the error that
    [parseStream] returns is dropped. *)
Fixpoint ParseFile_loop (file : File) (todo : nat) (streamNum : Z)
    : result File :=
  match todo with
  | O => Ok file
  | S todo' =>
      match parseStream file streamNum with
      | Ok file' => ParseFile_loop file' todo' (streamNum + 1)
      | Err _ => ParseFile_loop file todo' (streamNum + 1)
      | Panic p => Panic p
      end
  end.

(** [ParseFile], from the contents [buf] that [ioutil.ReadFile] returned. *)
Definition ParseFile (buf : slice byte) : result File :=
  let file := mkFile None None None [] buf in
  (* Parse MSF file header. *)
  do (msfHdr, _) <- parseMSFHeader (NewReader (Data file));
  let file := mkFile (Some msfHdr) (FreePageMap file) (StreamTbl file)
                     (Streams file) (Data file) in
  (* Parse free page map. *)
  do freePageMapData <- readPage file (FreePageMapPageNum msfHdr);
  let file := mkFile (FileHdr file) (Some (mkFPM freePageMapData))
                     (StreamTbl file) (Streams file) (Data file) in
  (* Parse stream table. *)
  do streamTblData <- readStreamTable file;
  do (streamTbl, _) <- parseStreamTable file (NewReader streamTblData);
  let file := mkFile (FileHdr file) (FreePageMap file) (Some streamTbl)
                     (Streams file) (Data file) in
  (* Parse streams. *)
  ParseFile_loop file (Z.to_nat (NStreams streamTbl)) 0.

End Pdb.

Arguments mkFile {PDBStream} _ _ _ _ _.
Arguments FileHdr {PDBStream} _.
Arguments FreePageMap {PDBStream} _.
Arguments StreamTbl {PDBStream} _.
Arguments Streams {PDBStream} _.
Arguments Data {PDBStream} _.
Arguments readPage {PDBStream} _ _.
Arguments readStreamTable_loop {PDBStream} _ _ _ _ _ _.
Arguments readStreamTable {PDBStream} _ _.
Arguments parsePageNumMaps {PDBStream} _ _ _ _.
Arguments parseStreamTable {PDBStream} _ _ _.
Arguments readStreamData_loop {PDBStream} _ _ _ _.
Arguments readStreamData {PDBStream} _ _ _.
Arguments parseStream {PDBStream} _ _ _ _.
Arguments ParseFile_loop {PDBStream} _ _ _ _ _.
Arguments ParseFile {PDBStream} _ _ _.

(** ** The layout of the container, in the words of the format *)

(** The bytes of page [pageNum]: the half-open range
    [[pageNum * pageSize, pageNum * pageSize + pageSize)] of the buffer. *)
Definition page_bytes (pageSize : Z) (data : list byte) (pageNum : Z) : list byte :=
  take (Z.to_nat pageSize) (drop (Z.to_nat (pageNum * pageSize)) data).

(** Page [pageNum] is a full page inside the buffer. *)
Definition page_in_buffer (pageSize : Z) (data : list byte) (pageNum : Z) : Prop :=
  0 <= pageNum /\ pageNum * pageSize + pageSize <= Z.of_nat (length data).

Definition encode_StreamInfo (si : StreamInfo) : list byte :=
  encode_int32 (Size si) ++ encode_int32 (Unknown si).

Definition encode_uint16s (l : list Z) : list byte :=
  concat (map encode_uint16 l).

(** The superblock: 44-byte magic, 4-byte page size, 2-byte free-page-map page
    number, 2-byte page count, 8-byte stream-directory descriptor, then the
    2-byte page indices of the directory; no padding. *)
Definition encode_MSFHeader (hdr : MSFHeader) : list byte :=
  Magic hdr
    ++ encode_int32 (PageSize hdr)
    ++ encode_uint16 (FreePageMapPageNum hdr)
    ++ encode_uint16 (NPages hdr)
    ++ encode_StreamInfo (StreamTblInfo hdr)
    ++ encode_uint16s (PageNumMap hdr).

Definition StreamInfo_layout (si : StreamInfo) : Prop :=
  is_int32 (Size si) /\ is_int32 (Unknown si).

Definition superblock_layout (hdr : MSFHeader) : Prop :=
  Magic hdr = msfSignature
  /\ is_int32 (PageSize hdr)
  /\ is_uint16 (FreePageMapPageNum hdr)
  /\ is_uint16 (NPages hdr)
  /\ StreamInfo_layout (StreamTblInfo hdr)
  /\ Forall is_uint16 (PageNumMap hdr)
  /\ Z.of_nat (length (PageNumMap hdr))
     = ceil_div (Size (StreamTblInfo hdr)) (PageSize hdr).

(** The stream directory: 4-byte stream count, that many 8-byte descriptors,
    then for each stream in order its 2-byte page indices. *)
Definition encode_StreamTable (tbl : StreamTable) : list byte :=
  encode_uint32 (NStreams tbl)
    ++ concat (map encode_StreamInfo (StreamInfos tbl))
    ++ concat (map encode_uint16s (PageNumMaps tbl)).

Definition pageNumMap_layout (pageSize : Z) (si : StreamInfo) (m : list Z) : Prop :=
  Forall is_uint16 m /\ Z.of_nat (length m) = ceil_div (Size si) pageSize.

Definition directory_layout (pageSize : Z) (tbl : StreamTable) : Prop :=
  is_uint32 (NStreams tbl)
  /\ Z.of_nat (length (StreamInfos tbl)) = NStreams tbl
  /\ Forall StreamInfo_layout (StreamInfos tbl)
  /\ Forall2 (pageNumMap_layout pageSize) (StreamInfos tbl) (PageNumMaps tbl).

(** A stream of a valid container: a size that is not negative and that the
    pages of the stream can hold (as is the case with
    [ceil (size / pageSize)] pages), and page numbers that each address a
    full page inside the buffer. *)
Definition valid_stream (pageSize : Z) (data : list byte)
    (si : StreamInfo) (m : list Z) : Prop :=
  0 <= Size si <= Z.of_nat (length m) * pageSize
  /\ Forall (page_in_buffer pageSize data) m.

(** A valid container: a positive page size, a buffer whose length is an
    [int], and a stream table whose streams are valid. *)
Definition valid_container {PDBStream} (file : File PDBStream)
    (hdr : MSFHeader) (tbl : StreamTable) : Prop :=
  FileHdr file = Some hdr
  /\ StreamTbl file = Some tbl
  /\ 0 < PageSize hdr
  /\ cap (Data file) < 2 ^ 63
  /\ Z.of_nat (length (StreamInfos tbl)) = NStreams tbl
  /\ Forall2 (valid_stream (PageSize hdr) (live (Data file)))
             (StreamInfos tbl) (PageNumMaps tbl).

(** The stages of [ParseFile] before the streams are dispatched: [file] is
    the file those stages build from [buf], with no decoded stream yet. *)
Definition header_stages {PDBStream} (rt : GoRuntime) (buf : slice byte)
    (file : File PDBStream) : Prop :=
  exists hdr rest fpmData tblData tbl rest',
    parseMSFHeader rt (NewReader buf) = Ok (hdr, rest)
    /\ readPage (mkFile (PDBStream := PDBStream) (Some hdr) None None [] buf)
                (FreePageMapPageNum hdr) = Ok fpmData
    /\ readStreamTable rt
         (mkFile (PDBStream := PDBStream) (Some hdr) (Some (mkFPM fpmData)) None [] buf)
       = Ok tblData
    /\ parseStreamTable rt
         (mkFile (PDBStream := PDBStream) (Some hdr) (Some (mkFPM fpmData)) None [] buf)
         (NewReader tblData) = Ok (tbl, rest')
    /\ file = mkFile (Some hdr) (Some (mkFPM fpmData)) (Some tbl) [] buf.

(** The errors of a decode that ran out of input. *)
Definition truncated_data (e : error) : Prop :=
  e = ErrEOF \/ e = ErrUnexpectedEOF.

(** [directory_field pageSize r remaining need]: decoding the stream table
    bytes [r] in order has reached a declared field of [need] bytes with
    [remaining] left to read.  The field is the stream count, the array of
    stream infos, or the page numbers of the next stream after the complete
    page number maps [done]. *)
Inductive directory_field (pageSize : Z) : reader -> reader -> Z -> Prop :=
  | field_count (r : reader) :
      directory_field pageSize r r 4
  | field_infos (b0 : list byte) (r1 : reader) :
      length b0 = 4%nat ->
      directory_field pageSize (b0 ++ r1) r1 (8 * decode_uint32 b0)
  | field_pages (b0 b1 : list byte) (done : list (list Z)) (si : StreamInfo)
        (r' : reader) :
      length b0 = 4%nat ->
      Z.of_nat (length b1) = 8 * decode_uint32 b0 ->
      Forall2 (pageNumMap_layout pageSize)
              (take (length done)
                    (decode_StreamInfos (Z.to_nat (decode_uint32 b0)) b1))
              done ->
      decode_StreamInfos (Z.to_nat (decode_uint32 b0)) b1 !! length done = Some si ->
      directory_field pageSize
        (b0 ++ b1 ++ concat (map encode_uint16s done) ++ r') r'
        (2 * ceil_div (Size si) pageSize).

(** ** A small container *)

(** Six pages of 64 bytes: the header, the free page map, the stream table,
    and three pages of stream data.  Stream 0 has 10 bytes on page 3, stream 1
    has 70 bytes on pages 5 and 4, in that order, and stream 2 is empty. *)
Definition pad_to (n : nat) (bs : list byte) : list byte :=
  bs ++ repeat x00 (n - length bs).

Definition ramp (start : Z) (n : nat) : list byte :=
  map (fun i => Z_to_byte (start + Z.of_nat i)) (seq 0 n).

Definition demo_hdr : MSFHeader :=
  mkMSFHeader msfSignature 64 1 6 (mkStreamInfo 34 0) [2].

Definition demo_tbl : StreamTable :=
  mkStreamTable 3
    [mkStreamInfo 10 0; mkStreamInfo 70 0; mkStreamInfo 0 0]
    [[3]; [5; 4]; []].

Definition demo_fpm_page : list byte := xc0 :: repeat xff 63.

Definition demo_bytes : list byte :=
  pad_to 64 (encode_MSFHeader demo_hdr)
    ++ demo_fpm_page
    ++ pad_to 64 (encode_StreamTable demo_tbl)
    ++ ramp 0 64 ++ ramp 64 64 ++ ramp 128 64.

Definition demo_buf : slice byte := mkSlice demo_bytes [].

(** A runtime: [append] allocates exactly what is needed, and a non-finite
    float converts to the smallest [int] (amd64). *)
Definition demo_rt : GoRuntime := mkRuntime (fun _ _ => O) (fun _ => - 2 ^ 63).

(** A decoder of the PDB stream that rejects its input, and one that keeps
    the bytes it is given. *)
Definition failing_decoder (file : File (list byte)) (r : reader)
    : result (list byte) := Err ErrUnexpectedEOF.

Definition raw_decoder (file : File (list byte)) (r : reader)
    : result (list byte) := Ok r.

(** The file [ParseFile] builds from [demo_buf] when the decoder fails. *)
Definition demo_fpm : FPM :=
  mkFPM (mkSlice demo_fpm_page (drop 128 demo_bytes)).

Definition demo_file : File (list byte) :=
  mkFile (Some demo_hdr) (Some demo_fpm) (Some demo_tbl) [] demo_buf.

(** The same container with the magic altered in its last byte. *)
Definition bad_magic_buf : slice byte :=
  mkSlice (take 43 demo_bytes ++ [x01] ++ drop 44 demo_bytes) [].

(** The container cut off ten bytes into its stream table page, as
    [ioutil.ReadFile] returns a file of 138 bytes: in a zeroed buffer of
    capacity 512. *)
Definition truncated_buf : slice byte :=
  mkSlice (take 138 demo_bytes) (repeat x00 374).

(** A container of 520 pages of 64 bytes and no stream; its bitmap
    page has bits for 512 pages. *)
Definition wide_hdr : MSFHeader :=
  mkMSFHeader msfSignature 64 1 520 (mkStreamInfo 4 0) [2].

Definition wide_bytes : list byte :=
  pad_to 64 (encode_MSFHeader wide_hdr)
    ++ repeat x00 64
    ++ pad_to 64 (encode_StreamTable (mkStreamTable 0 [] []))
    ++ repeat x00 (517 * 64).

Definition wide_buf : slice byte := mkSlice wide_bytes [].

Definition wide_fpm : FPM :=
  mkFPM (mkSlice (repeat x00 64) (drop 128 wide_bytes)).

Definition wide_file : File (list byte) :=
  mkFile (Some wide_hdr) (Some wide_fpm)
         (Some (mkStreamTable 0 [] [])) [] wide_buf.

(** A container of four pages of 64 bytes with two streams: stream 0 has
    10 bytes on page 3, and stream 1 has the size -1 of a deleted stream and
    no page.  The buffer is the one [ioutil.ReadFile] returns for a file of
    256 bytes: zeroed, of capacity 512. *)
Definition nil_stream_hdr : MSFHeader :=
  mkMSFHeader msfSignature 64 1 4 (mkStreamInfo 22 0) [2].

Definition nil_stream_tbl : StreamTable :=
  mkStreamTable 2 [mkStreamInfo 10 0; mkStreamInfo (-1) 0] [[3]; []].

Definition nil_stream_bytes : list byte :=
  pad_to 64 (encode_MSFHeader nil_stream_hdr)
    ++ (xf0 :: repeat xff 63)
    ++ pad_to 64 (encode_StreamTable nil_stream_tbl)
    ++ ramp 0 64.

Definition nil_stream_buf : slice byte :=
  mkSlice nil_stream_bytes (repeat x00 256).

(** The file the stages of [ParseFile] before the dispatch build from
    [nil_stream_buf]. *)
Definition nil_stream_file : File (list byte) :=
  mkFile (Some nil_stream_hdr)
         (Some (mkFPM (mkSlice (xf0 :: repeat xff 63)
                               (drop 128 (nil_stream_bytes ++ repeat x00 256)))))
         (Some nil_stream_tbl) [] nil_stream_buf.

(** [ceiling a b n]: [n] is [ceil (a / b)], the integer with
    [n - 1 < a / b <= n], written without division. *)
Definition ceiling (a b n : Z) : Prop :=
  (0 < b /\ (n - 1) * b < a /\ a <= n * b)
  \/ (b < 0 /\ n * b <= a /\ a < (n - 1) * b).

(** The superblock of the format, with the number of page indices given by
    [ceiling]. *)
Definition superblock_format (hdr : MSFHeader) : Prop :=
  Magic hdr = msfSignature
  /\ is_int32 (PageSize hdr)
  /\ is_uint16 (FreePageMapPageNum hdr)
  /\ is_uint16 (NPages hdr)
  /\ StreamInfo_layout (StreamTblInfo hdr)
  /\ Forall is_uint16 (PageNumMap hdr)
  /\ ceiling (Size (StreamTblInfo hdr)) (PageSize hdr)
             (Z.of_nat (length (PageNumMap hdr))).

(** A header whose stream table of 130 bytes takes three pages of 64. *)
Definition three_page_hdr : MSFHeader :=
  mkMSFHeader msfSignature 64 1 6 (mkStreamInfo 130 0) [2; 3; 4].

(** * Properties *)

(** ** Bytes and little-endian integers *)

Lemma byte_to_Z_range (b : byte) : 0 <= byte_to_Z b < 256.
Proof.
  unfold byte_to_Z. pose proof (Byte.to_N_bounded b) as H. lia.
Qed.

Lemma byte_to_Z_to_byte (b : byte) : Z_to_byte (byte_to_Z b) = b.
Proof.
  unfold Z_to_byte, byte_to_Z. rewrite N2Z.id, Byte.of_to_N. reflexivity.
Qed.

Lemma Z_to_byte_to_Z (z : Z) : 0 <= z < 256 -> byte_to_Z (Z_to_byte z) = z.
Proof.
  intros Hz. unfold Z_to_byte, byte_to_Z.
  destruct (Byte.of_N (Z.to_N z)) as [b|] eqn:E.
  - apply Byte.to_of_N in E. rewrite E. lia.
  - apply Byte.of_N_None_iff in E. lia.
Qed.

Lemma bytes_eqb_eq (a b : list byte) : bytes_eqb a b = true <-> a = b.
Proof.
  revert b. induction a as [|x a IH]; intros [|y b]; simpl; try (split; congruence).
  rewrite andb_true_iff, IH. split.
  - intros [Hxy ->]. apply Byte.byte_dec_bl in Hxy. congruence.
  - intros [= -> ->]. split; [apply Byte.byte_dec_lb|]; reflexivity.
Qed.

Lemma bytes_eqb_refl (a : list byte) : bytes_eqb a a = true.
Proof. apply bytes_eqb_eq. reflexivity. Qed.

Lemma pow256_succ (n : nat) : 256 ^ Z.of_nat (S n) = 256 * 256 ^ Z.of_nat n.
Proof. rewrite Nat2Z.inj_succ, Z.pow_succ_r by lia. reflexivity. Qed.

Lemma le_decode_range (bs : list byte) :
  0 <= le_decode bs < 256 ^ Z.of_nat (length bs).
Proof.
  induction bs as [|b bs IH].
  - simpl. lia.
  - cbn [le_decode length]. rewrite pow256_succ.
    pose proof (byte_to_Z_range b). lia.
Qed.

Lemma length_le_encode (n : nat) (z : Z) : length (le_encode n z) = n.
Proof. revert z. induction n; intros z; simpl; [|rewrite IHn]; reflexivity. Qed.

Lemma le_decode_encode (n : nat) (z : Z) :
  0 <= z < 256 ^ Z.of_nat n -> le_decode (le_encode n z) = z.
Proof.
  revert z. induction n as [|n IH]; intros z Hz.
  - simpl in *. lia.
  - rewrite pow256_succ in Hz. cbn [le_encode le_decode].
    rewrite Z_to_byte_to_Z by (apply Z.mod_pos_bound; lia).
    rewrite IH.
    + pose proof (Z.div_mod z 256). lia.
    + split; [apply Z.div_pos; lia|apply Z.div_lt_upper_bound; lia].
Qed.

Lemma le_encode_decode (bs : list byte) :
  le_encode (length bs) (le_decode bs) = bs.
Proof.
  induction bs as [|b bs IH]; [reflexivity|].
  cbn [length le_decode le_encode].
  pose proof (byte_to_Z_range b) as Hb.
  replace ((byte_to_Z b + 256 * le_decode bs) mod 256) with (byte_to_Z b).
  2:{ apply Z.mod_unique with (q := le_decode bs); lia. }
  replace ((byte_to_Z b + 256 * le_decode bs) / 256) with (le_decode bs).
  2:{ apply Z.div_unique with (r := byte_to_Z b); lia. }
  rewrite byte_to_Z_to_byte, IH. reflexivity.
Qed.

Lemma to_int32_range (u : Z) : 0 <= u < 2 ^ 32 -> is_int32 (to_int32 u).
Proof.
  unfold to_int32, is_int32. intros Hu. destruct (Z.ltb_spec u (2 ^ 31)); lia.
Qed.

Lemma to_int32_mod (z : Z) : is_int32 z -> to_int32 (z mod 2 ^ 32) = z.
Proof.
  unfold to_int32, is_int32. intros Hz.
  destruct (Z.neg_nonneg_cases z) as [Hneg|Hpos].
  - replace (z mod 2 ^ 32) with (z + 2 ^ 32).
    + destruct (Z.ltb_spec (z + 2 ^ 32) (2 ^ 31)); lia.
    + apply Z.mod_unique with (q := -1); lia.
  - rewrite Z.mod_small by lia. destruct (Z.ltb_spec z (2 ^ 31)); lia.
Qed.

Lemma mod_to_int32 (u : Z) : 0 <= u < 2 ^ 32 -> to_int32 u mod 2 ^ 32 = u.
Proof.
  unfold to_int32. intros Hu. destruct (Z.ltb_spec u (2 ^ 31)).
  - apply Z.mod_small. lia.
  - symmetry. apply Z.mod_unique with (q := -1); lia.
Qed.

Lemma decode_encode_uint16 (z : Z) :
  is_uint16 z -> decode_uint16 (encode_uint16 z) = z.
Proof. intros Hz. apply le_decode_encode. exact Hz. Qed.

Lemma decode_encode_uint32 (z : Z) :
  is_uint32 z -> decode_uint32 (encode_uint32 z) = z.
Proof. intros Hz. apply le_decode_encode. exact Hz. Qed.

Lemma decode_encode_int32 (z : Z) :
  is_int32 z -> decode_int32 (encode_int32 z) = z.
Proof.
  intros Hz. unfold decode_int32, encode_int32.
  rewrite le_decode_encode by (apply (Z.mod_pos_bound z (2 ^ 32)); lia).
  apply to_int32_mod. exact Hz.
Qed.

Lemma decode_uint16_range (bs : list byte) :
  length bs = 2%nat -> is_uint16 (decode_uint16 bs).
Proof.
  intros H. pose proof (le_decode_range bs) as R. rewrite H in R. exact R.
Qed.

Lemma decode_uint32_range (bs : list byte) :
  length bs = 4%nat -> is_uint32 (decode_uint32 bs).
Proof.
  intros H. pose proof (le_decode_range bs) as R. rewrite H in R. exact R.
Qed.

Lemma decode_int32_range (bs : list byte) :
  length bs = 4%nat -> is_int32 (decode_int32 bs).
Proof.
  intros H. apply to_int32_range. apply (decode_uint32_range bs H).
Qed.

Lemma encode_decode_uint16 (bs : list byte) :
  length bs = 2%nat -> encode_uint16 (decode_uint16 bs) = bs.
Proof.
  intros H. unfold encode_uint16, decode_uint16.
  rewrite <- H. apply le_encode_decode.
Qed.

Lemma encode_decode_uint32 (bs : list byte) :
  length bs = 4%nat -> encode_uint32 (decode_uint32 bs) = bs.
Proof.
  intros H. unfold encode_uint32, decode_uint32.
  rewrite <- H. apply le_encode_decode.
Qed.

Lemma encode_decode_int32 (bs : list byte) :
  length bs = 4%nat -> encode_int32 (decode_int32 bs) = bs.
Proof.
  intros H. unfold encode_int32, decode_int32.
  rewrite mod_to_int32 by (apply (decode_uint32_range bs H)).
  rewrite <- H. apply le_encode_decode.
Qed.

(** ** Page counts *)

Lemma ceil_div_spec (a b : Z) :
  0 < b -> (ceil_div a b - 1) * b < a <= ceil_div a b * b.
Proof.
  intros Hb. unfold ceil_div.
  pose proof (Z.div_mod (- a) b) as E.
  pose proof (Z.mod_pos_bound (- a) b Hb) as R. nia.
Qed.

Lemma ceil_div_unique (a b n : Z) :
  0 < b -> (n - 1) * b < a <= n * b -> ceil_div a b = n.
Proof.
  intros Hb Hn. pose proof (ceil_div_spec a b Hb) as Hc. nia.
Qed.

Lemma ceil_div_nonneg (a b : Z) : 0 < b -> 0 <= a -> 0 <= ceil_div a b.
Proof.
  intros Hb Ha. pose proof (ceil_div_spec a b Hb). nia.
Qed.

Lemma ceil_div_bound (a b : Z) :
  is_int32 a -> b <> 0 -> - 2 ^ 31 <= ceil_div a b <= 2 ^ 31.
Proof.
  unfold is_int32, ceil_div. intros Ha Hb.
  pose proof (Z.div_mod (- a) b) as E.
  destruct (Z.lt_trichotomy b 0) as [Hneg|[H0|Hpos]]; [|lia|].
  - pose proof (Z.mod_neg_bound (- a) b Hneg) as R. nia.
  - pose proof (Z.mod_pos_bound (- a) b Hpos) as R. nia.
Qed.

Lemma npages_of_nonzero (rt : GoRuntime) (a b : Z) :
  b <> 0 -> npages_of rt a b = ceil_div a b.
Proof.
  intros Hb. unfold npages_of. destruct (Z.eqb_spec b 0); [lia|reflexivity].
Qed.

(** The page counts of the example in the comment on [StreamTable]. *)
Example ceil_div_llvm_example :
  map (fun size => ceil_div size 4096) [1000; 8000; 16000; 9000] = [1; 2; 4; 3].
Proof. reflexivity. Qed.

Lemma make_len_Ok (elemSize n : Z) (k : nat) :
  make_len elemSize n = Ok k -> 0 <= n /\ k = Z.to_nat n.
Proof.
  unfold make_len. destruct (Z.ltb_spec n 0); simpl; [discriminate|].
  destruct (maxAlloc <? elemSize * n); [discriminate|].
  intros [= <-]. split; [lia|reflexivity].
Qed.

Lemma make_len_small (n : Z) :
  0 <= n <= 2 ^ 31 -> make_len 2 n = Ok (Z.to_nat n).
Proof.
  intros Hn. unfold make_len, maxAlloc.
  destruct (Z.ltb_spec n 0); [lia|].
  destruct (Z.ltb_spec (2 ^ 48) (2 * n)); [lia|]. reflexivity.
Qed.

(** ** Reading *)

Lemma read_full_app (a : list byte) (r : reader) :
  read_full (Z.of_nat (length a)) (a ++ r) = Ok (a, r).
Proof.
  unfold read_full. rewrite length_app.
  destruct (Z.leb_spec (Z.of_nat (length a)) (Z.of_nat (length a + length r))); [|lia].
  rewrite Nat2Z.id, take_app_length, drop_app_length. reflexivity.
Qed.

Lemma read_full_app_n (n : Z) (a : list byte) (r : reader) :
  Z.of_nat (length a) = n -> read_full n (a ++ r) = Ok (a, r).
Proof. intros <-. apply read_full_app. Qed.

Lemma read_full_Ok (n : Z) (r : reader) (a : list byte) (r' : reader) :
  0 <= n -> read_full n r = Ok (a, r') ->
  r = a ++ r' /\ Z.of_nat (length a) = n.
Proof.
  unfold read_full. intros Hn.
  destruct (Z.leb_spec n (Z.of_nat (length r))); [|destruct r; discriminate].
  intros [= <- <-]. split; [symmetry; apply take_drop|].
  rewrite length_take. lia.
Qed.

Lemma read_full_short (n : Z) (r : reader) :
  Z.of_nat (length r) < n ->
  read_full n r = Err ErrEOF \/ read_full n r = Err ErrUnexpectedEOF.
Proof.
  unfold read_full. intros Hn.
  destruct (Z.leb_spec n (Z.of_nat (length r))); [lia|].
  destruct r; [left|right]; reflexivity.
Qed.

(** ** Arrays of integers and of stream infos *)

Lemma length_encode_uint16 (z : Z) : length (encode_uint16 z) = 2%nat.
Proof. apply length_le_encode. Qed.

Lemma length_encode_int32 (z : Z) : length (encode_int32 z) = 4%nat.
Proof. apply length_le_encode. Qed.

Lemma length_encode_uint32 (z : Z) : length (encode_uint32 z) = 4%nat.
Proof. apply length_le_encode. Qed.

Lemma length_encode_StreamInfo (si : StreamInfo) :
  length (encode_StreamInfo si) = 8%nat.
Proof.
  unfold encode_StreamInfo. rewrite length_app, !length_encode_int32. reflexivity.
Qed.

Lemma length_encode_uint16s (l : list Z) :
  Z.of_nat (length (encode_uint16s l)) = 2 * Z.of_nat (length l).
Proof.
  unfold encode_uint16s. induction l as [|x l IH]; [reflexivity|].
  cbn [map concat length]. rewrite length_app, length_encode_uint16. lia.
Qed.

Lemma length_encode_StreamInfos (l : list StreamInfo) :
  Z.of_nat (length (concat (map encode_StreamInfo l))) = 8 * Z.of_nat (length l).
Proof.
  induction l as [|x l IH]; [reflexivity|].
  cbn [map concat length]. rewrite length_app, length_encode_StreamInfo. lia.
Qed.

Lemma decode_encode_uint16s (l : list Z) :
  Forall is_uint16 l -> decode_uint16s (length l) (encode_uint16s l) = l.
Proof.
  unfold encode_uint16s. induction 1 as [|x l Hx Hl IH]; [reflexivity|].
  cbn [length map concat decode_uint16s].
  rewrite take_app_length' by (symmetry; apply length_encode_uint16).
  rewrite drop_app_length' by (symmetry; apply length_encode_uint16).
  rewrite decode_encode_uint16 by exact Hx. rewrite IH. reflexivity.
Qed.

Lemma encode_decode_uint16s (n : nat) (bs : list byte) :
  Z.of_nat (length bs) = 2 * Z.of_nat n ->
  encode_uint16s (decode_uint16s n bs) = bs.
Proof.
  unfold encode_uint16s. revert bs. induction n as [|n IH]; intros bs Hlen.
  - destruct bs; [reflexivity|simpl in Hlen; lia].
  - cbn [decode_uint16s map concat].
    rewrite encode_decode_uint16 by (rewrite length_take; lia).
    rewrite IH by (rewrite length_drop; lia).
    apply take_drop.
Qed.

Lemma decode_uint16s_layout (n : nat) (bs : list byte) :
  Z.of_nat (length bs) = 2 * Z.of_nat n ->
  Forall is_uint16 (decode_uint16s n bs) /\ length (decode_uint16s n bs) = n.
Proof.
  revert bs. induction n as [|n IH]; intros bs Hlen.
  - split; [constructor|reflexivity].
  - cbn [decode_uint16s length].
    destruct (IH (drop 2 bs)) as [HF HL]; [rewrite length_drop; lia|].
    split; [|rewrite HL; reflexivity].
    constructor; [|exact HF].
    apply decode_uint16_range. rewrite length_take. lia.
Qed.

Lemma decode_encode_StreamInfo (si : StreamInfo) :
  StreamInfo_layout si -> decode_StreamInfo (encode_StreamInfo si) = si.
Proof.
  intros [HS HU]. destruct si as [s u]. unfold decode_StreamInfo, encode_StreamInfo.
  cbn [Size Unknown] in *.
  rewrite take_app_length' by (symmetry; apply length_encode_int32).
  rewrite drop_app_length' by (symmetry; apply length_encode_int32).
  rewrite firstn_all2 by (rewrite length_encode_int32; lia).
  rewrite !decode_encode_int32 by assumption. reflexivity.
Qed.

Lemma encode_decode_StreamInfo (bs : list byte) :
  length bs = 8%nat -> encode_StreamInfo (decode_StreamInfo bs) = bs.
Proof.
  intros Hlen. unfold encode_StreamInfo, decode_StreamInfo. cbn [Size Unknown].
  rewrite !encode_decode_int32 by (rewrite ?length_take, ?length_drop; lia).
  rewrite <- (take_drop 4 bs) at 3. f_equal.
  apply firstn_all2. rewrite length_drop. lia.
Qed.

Lemma decode_StreamInfo_layout (bs : list byte) :
  length bs = 8%nat -> StreamInfo_layout (decode_StreamInfo bs).
Proof.
  intros Hlen. split; cbn [decode_StreamInfo Size Unknown];
    apply decode_int32_range; rewrite ?length_take, ?length_drop; lia.
Qed.

Lemma decode_encode_StreamInfos (l : list StreamInfo) :
  Forall StreamInfo_layout l ->
  decode_StreamInfos (length l) (concat (map encode_StreamInfo l)) = l.
Proof.
  induction 1 as [|x l Hx Hl IH]; [reflexivity|].
  cbn [length map concat decode_StreamInfos].
  rewrite take_app_length' by (symmetry; apply length_encode_StreamInfo).
  rewrite drop_app_length' by (symmetry; apply length_encode_StreamInfo).
  rewrite decode_encode_StreamInfo by exact Hx. rewrite IH. reflexivity.
Qed.

Lemma encode_decode_StreamInfos (n : nat) (bs : list byte) :
  Z.of_nat (length bs) = 8 * Z.of_nat n ->
  concat (map encode_StreamInfo (decode_StreamInfos n bs)) = bs.
Proof.
  revert bs. induction n as [|n IH]; intros bs Hlen.
  - destruct bs; [reflexivity|simpl in Hlen; lia].
  - cbn [decode_StreamInfos map concat].
    rewrite encode_decode_StreamInfo by (rewrite length_take; lia).
    rewrite IH by (rewrite length_drop; lia).
    apply take_drop.
Qed.

Lemma decode_StreamInfos_layout (n : nat) (bs : list byte) :
  Z.of_nat (length bs) = 8 * Z.of_nat n ->
  Forall StreamInfo_layout (decode_StreamInfos n bs)
  /\ length (decode_StreamInfos n bs) = n.
Proof.
  revert bs. induction n as [|n IH]; intros bs Hlen.
  - split; [constructor|reflexivity].
  - cbn [decode_StreamInfos length].
    destruct (IH (drop 8 bs)) as [HF HL]; [rewrite length_drop; lia|].
    split; [|rewrite HL; reflexivity].
    constructor; [|exact HF].
    apply decode_StreamInfo_layout. rewrite length_take. lia.
Qed.

(** ** The MSF header *)

Lemma length_msfSignature : Z.of_nat (length msfSignature) = 44.
Proof. reflexivity. Qed.

(** One [binary.Read] of a successful parse: name the bytes read and the
    reader left. *)
Ltac read_step H b r E :=
  match type of H with
  | bind (read_full ?n ?r0) _ = _ =>
      destruct (read_full n r0) as [[b r]| |] eqn:E;
      [cbn [bind] in H | discriminate H | discriminate H]
  end.

Lemma parseMSFHeader_sound (rt : GoRuntime) (r : reader)
    (hdr : MSFHeader) (rest : reader) :
  PageSize hdr <> 0 ->
  parseMSFHeader rt r = Ok (hdr, rest) ->
  superblock_layout hdr /\ r = encode_MSFHeader hdr ++ rest.
Proof.
  intros Hps H. unfold parseMSFHeader in H.
  read_step H magic r1 E1.
  destruct (bytes_eqb magic msfSignature) eqn:Em; cbn [negb] in H; [|discriminate H].
  read_step H b1 r2 E2. read_step H b2 r3 E3. read_step H b3 r4 E4.
  read_step H b4 r5 E5.
  destruct (make_len 2 _) as [n| |] eqn:En in H; cbn [bind] in H; try discriminate H.
  read_step H b5 r6 E6.
  injection H as <- <-. cbn [PageSize] in Hps.
  apply bytes_eqb_eq in Em. subst magic.
  apply make_len_Ok in En. destruct En as [Hn0 ->].
  rewrite npages_of_nonzero in * by exact Hps.
  apply read_full_Ok in E1, E2, E3, E4, E5, E6; try lia.
  destruct E1 as [-> L1], E2 as [-> L2], E3 as [-> L3], E4 as [-> L4],
           E5 as [-> L5], E6 as [-> L6].
  assert (L6' : Z.of_nat (length b5)
                = 2 * Z.of_nat (Z.to_nat
                    (ceil_div (Size (decode_StreamInfo b4)) (decode_int32 b1)))) by lia.
  destruct (decode_uint16s_layout _ _ L6') as [HF HL].
  split.
  - unfold superblock_layout.
    cbn [Magic PageSize FreePageMapPageNum NPages StreamTblInfo PageNumMap].
    refine (conj eq_refl (conj _ (conj _ (conj _ (conj _ (conj HF _)))))).
    + apply decode_int32_range; lia.
    + apply decode_uint16_range; lia.
    + apply decode_uint16_range; lia.
    + apply decode_StreamInfo_layout; lia.
    + rewrite HL. lia.
  - unfold encode_MSFHeader.
    cbn [Magic PageSize FreePageMapPageNum NPages StreamTblInfo PageNumMap].
    rewrite encode_decode_int32, !encode_decode_uint16, encode_decode_StreamInfo,
      encode_decode_uint16s by lia.
    rewrite <- !app_assoc. reflexivity.
Qed.

Lemma parseMSFHeader_complete (rt : GoRuntime) (hdr : MSFHeader) (rest : reader) :
  PageSize hdr <> 0 ->
  superblock_layout hdr ->
  parseMSFHeader rt (encode_MSFHeader hdr ++ rest) = Ok (hdr, rest).
Proof.
  intros Hps (Hm & Hp & Hf & Hn & Hi & HF & HL).
  destruct hdr as [magic ps fpm np info maps].
  cbn [Magic PageSize FreePageMapPageNum NPages StreamTblInfo PageNumMap] in *.
  subst magic. unfold encode_MSFHeader, parseMSFHeader.
  cbn [Magic PageSize FreePageMapPageNum NPages StreamTblInfo PageNumMap].
  rewrite <- !app_assoc.
  rewrite (read_full_app_n 44) by apply length_msfSignature. cbn [bind].
  rewrite bytes_eqb_refl. cbn [negb].
  rewrite (read_full_app_n 4) by (rewrite length_encode_int32; reflexivity).
  cbn [bind].
  rewrite (read_full_app_n 2) by (rewrite length_encode_uint16; reflexivity).
  cbn [bind].
  rewrite (read_full_app_n 2) by (rewrite length_encode_uint16; reflexivity).
  cbn [bind].
  rewrite (read_full_app_n 8) by (rewrite length_encode_StreamInfo; reflexivity).
  cbn [bind].
  rewrite decode_encode_int32, !decode_encode_uint16, decode_encode_StreamInfo
    by assumption.
  rewrite npages_of_nonzero by exact Hps.
  pose proof (ceil_div_bound (Size info) ps (proj1 Hi) Hps) as Hb.
  rewrite make_len_small by lia. cbn [bind].
  rewrite read_full_app_n by (rewrite length_encode_uint16s; lia).
  cbn [bind]. rewrite <- HL, Nat2Z.id, decode_encode_uint16s by exact HF.
  reflexivity.
Qed.

(** [parseMSFHeader] succeeds exactly on the inputs that begin with a
    superblock laid out in the fixed order and widths of the format: the
    44-byte magic, the 4-byte signed page size, the 2-byte free-page-map page
    number, the 2-byte page count, the 8-byte stream-directory descriptor
    (4-byte size and 4-byte reserved field) and [ceil (size / pageSize)]
    2-byte page indices, all little-endian; it returns these fields and
    leaves the reader right behind the last page index, with no padding
    consumed. *)
Theorem parseMSFHeader_layout (rt : GoRuntime) (r : reader)
    (hdr : MSFHeader) (rest : reader) :
  PageSize hdr <> 0 ->
  parseMSFHeader rt r = Ok (hdr, rest)
  <-> superblock_layout hdr /\ r = encode_MSFHeader hdr ++ rest.
Proof.
  intros Hps. split.
  - apply parseMSFHeader_sound. exact Hps.
  - intros [Hl ->]. apply parseMSFHeader_complete; assumption.
Qed.

(** ** Slices and pages *)

Lemma wrap_int_id (z : Z) : is_int z -> wrap_int z = z.
Proof.
  unfold is_int, wrap_int. intros Hz. rewrite Z.mod_small; lia.
Qed.

Lemma len_le_cap {A} (s : slice A) : len s <= cap s.
Proof. unfold len, cap. rewrite length_app. lia. Qed.

Lemma reslice_within_len {A} (s : slice A) (lo hi : Z) :
  0 <= lo -> lo <= hi -> hi <= len s ->
  exists s', reslice s lo hi = Ok s'
             /\ live s' = take (Z.to_nat (hi - lo)) (drop (Z.to_nat lo) (live s))
             /\ len s' = hi - lo.
Proof.
  intros H0 H1 H2. pose proof (len_le_cap s) as Hc. unfold reslice.
  destruct (Z.leb_spec 0 lo); [|lia].
  destruct (Z.leb_spec lo hi); [|lia].
  destruct (Z.leb_spec hi (cap s)); [|lia].
  cbn [andb]. eexists. split; [reflexivity|].
  unfold len in *. cbn [live].
  assert (E : take (Z.to_nat (hi - lo)) (drop (Z.to_nat lo) (live s ++ spare s))
              = take (Z.to_nat (hi - lo)) (drop (Z.to_nat lo) (live s))).
  { rewrite drop_app_le by lia. apply take_app_le. rewrite length_drop. lia. }
  rewrite E. split; [reflexivity|].
  rewrite length_take, length_drop. lia.
Qed.

Lemma reslice_out_of_cap {A} (s : slice A) (lo hi : Z) :
  lo < 0 \/ hi < lo \/ cap s < hi -> reslice s lo hi = Panic PanicSliceBounds.
Proof.
  intros H. unfold reslice.
  destruct (Z.leb_spec 0 lo); [|reflexivity].
  destruct (Z.leb_spec lo hi); [|reflexivity].
  destruct (Z.leb_spec hi (cap s)); [lia|reflexivity].
Qed.

Lemma reslice_Ok {A} (s s' : slice A) (lo hi : Z) :
  reslice s lo hi = Ok s' ->
  0 <= lo /\ lo <= hi /\ hi <= cap s /\ len s' = hi - lo.
Proof.
  unfold reslice.
  destruct (Z.leb_spec 0 lo); [|discriminate].
  destruct (Z.leb_spec lo hi); [|discriminate].
  destruct (Z.leb_spec hi (cap s)); [|discriminate].
  cbn [andb]. intros [= <-]. repeat split; try assumption.
  unfold len, cap in *. cbn [live]. rewrite length_take, length_drop. lia.
Qed.

Lemma reslice_not_Err {A} (s : slice A) (lo hi : Z) (e : error) :
  reslice s lo hi <> Err e.
Proof. unfold reslice. destruct (_ && _); discriminate. Qed.

Lemma index_lookup {A} (l : list A) (i : nat) (a : A) :
  l !! i = Some a -> index l (Z.of_nat i) = Ok a.
Proof.
  intros H. unfold index. pose proof (lookup_lt_Some _ _ _ H) as Hlt.
  destruct (Z.leb_spec 0 (Z.of_nat i)); [|lia].
  destruct (Z.ltb_spec (Z.of_nat i) (Z.of_nat (length l))); [|lia].
  cbn [andb]. rewrite Nat2Z.id, H. reflexivity.
Qed.

Lemma index_out_of_range {A} (l : list A) (i : Z) :
  i < 0 \/ Z.of_nat (length l) <= i -> index l i = Panic PanicIndex.
Proof.
  intros H. unfold index.
  destruct (Z.leb_spec 0 i); [|reflexivity].
  destruct (Z.ltb_spec i (Z.of_nat (length l))); [lia|reflexivity].
Qed.

Lemma index_in_range {A} (l : list A) (i : Z) :
  0 <= i < Z.of_nat (length l) ->
  exists a, index l i = Ok a /\ l !! Z.to_nat i = Some a.
Proof.
  intros H. destruct (lookup_lt_is_Some_2 l (Z.to_nat i)) as [a Ha]; [lia|].
  exists a. split; [|exact Ha].
  rewrite <- (Z2Nat.id i) by lia. apply index_lookup. exact Ha.
Qed.

Lemma index_not_Err {A} (l : list A) (i : Z) (e : error) : index l i <> Err e.
Proof.
  unfold index. destruct (_ && _); [|discriminate].
  destruct (l !! Z.to_nat i); discriminate.
Qed.

Section Pages.

Context {PDBStream : Type}.
Implicit Types (file : File PDBStream) (hdr : MSFHeader).

Lemma readPage_not_Err file pageNum e : readPage file pageNum <> Err e.
Proof.
  unfold readPage. destruct (FileHdr file); [apply reslice_not_Err|discriminate].
Qed.

Lemma readPage_no_wrap file hdr pageNum :
  FileHdr file = Some hdr ->
  is_int (pageNum * PageSize hdr) ->
  is_int (pageNum * PageSize hdr + PageSize hdr) ->
  readPage file pageNum
  = reslice (Data file) (pageNum * PageSize hdr)
            (pageNum * PageSize hdr + PageSize hdr).
Proof.
  intros Hh H1 H2. unfold readPage. rewrite Hh. unfold int_mul, int_add.
  rewrite (wrap_int_id (pageNum * PageSize hdr)) by exact H1.
  rewrite wrap_int_id by exact H2. reflexivity.
Qed.

Lemma readPage_in_buffer file hdr pageNum :
  FileHdr file = Some hdr ->
  0 <= PageSize hdr ->
  cap (Data file) < 2 ^ 63 ->
  page_in_buffer (PageSize hdr) (live (Data file)) pageNum ->
  exists s, readPage file pageNum = Ok s
            /\ live s = page_bytes (PageSize hdr) (live (Data file)) pageNum
            /\ len s = PageSize hdr.
Proof.
  intros Hh Hps Hcap [Hp Hin]. unfold readPage. rewrite Hh.
  pose proof (len_le_cap (Data file)) as Hlc. unfold len in Hlc.
  assert (H0 : 0 <= pageNum * PageSize hdr) by nia.
  unfold int_mul, int_add.
  rewrite (wrap_int_id (pageNum * PageSize hdr)) by (unfold is_int; lia).
  rewrite wrap_int_id by (unfold is_int; lia).
  destruct (reslice_within_len (Data file) (pageNum * PageSize hdr)
              (pageNum * PageSize hdr + PageSize hdr)) as (s & Hs & Hl & Hn);
    [lia|lia|unfold len; lia|].
  exists s. split; [exact Hs|]. unfold page_bytes.
  rewrite Hl, Hn. split; [f_equal; f_equal; lia|lia].
Qed.

(** C3, as the code has it.  When [pageNum * pageSize] and the end of the page
    are representable, [readPage] returns the half-open byte range
    [[pageNum * pageSize, pageNum * pageSize + pageSize)] of the buffer when
    that range lies inside the buffer; it never returns an error, and when
    the range is negative, inverted or reaches beyond the capacity of the
    buffer it panics with a slice-bounds run-time panic. *)
Theorem readPage_range file hdr pageNum :
  FileHdr file = Some hdr ->
  is_int (pageNum * PageSize hdr) ->
  is_int (pageNum * PageSize hdr + PageSize hdr) ->
  let start := pageNum * PageSize hdr in
  let end_ := start + PageSize hdr in
  (0 <= start -> start <= end_ -> end_ <= len (Data file) ->
   exists s, readPage file pageNum = Ok s
             /\ live s = page_bytes (PageSize hdr) (live (Data file)) pageNum
             /\ len s = PageSize hdr)
  /\ (start < 0 \/ end_ < start \/ cap (Data file) < end_ ->
      readPage file pageNum = Panic PanicSliceBounds)
  /\ (forall e, readPage file pageNum <> Err e).
Proof.
  intros Hh H1 H2 start end_. subst start end_. split; [|split].
  - intros H0 Hle Hin. rewrite (readPage_no_wrap file hdr pageNum Hh H1 H2).
    destruct (reslice_within_len (Data file) (pageNum * PageSize hdr)
                (pageNum * PageSize hdr + PageSize hdr)) as (s & Hs & Hl & Hn);
      [lia|lia|lia|].
    exists s. split; [exact Hs|]. unfold page_bytes.
    rewrite Hl, Hn. split; [f_equal; f_equal; lia|lia].
  - intros Hout. rewrite (readPage_no_wrap file hdr pageNum Hh H1 H2).
    apply reslice_out_of_cap. exact Hout.
  - intros e. apply readPage_not_Err.
Qed.

End Pages.

(** ** Stream reassembly *)

Lemma live_append (rt : GoRuntime) (s : slice byte) (xs : list byte) :
  live (append rt s xs) = live s ++ xs.
Proof. unfold append. destruct (_ <=? _)%nat; reflexivity. Qed.

Lemma length_page_bytes (pageSize : Z) (data : list byte) (pageNum : Z) :
  0 <= pageSize -> page_in_buffer pageSize data pageNum ->
  Z.of_nat (length (page_bytes pageSize data pageNum)) = pageSize.
Proof.
  intros Hps [Hp Hin]. unfold page_bytes.
  rewrite length_take, length_drop. nia.
Qed.

Lemma length_concat_pages (pageSize : Z) (data : list byte) (m : list Z) :
  0 <= pageSize -> Forall (page_in_buffer pageSize data) m ->
  Z.of_nat (length (concat (map (page_bytes pageSize data) m)))
  = Z.of_nat (length m) * pageSize.
Proof.
  intros Hps. induction 1 as [|p m Hp Hm IH]; [reflexivity|].
  cbn [map concat length]. rewrite length_app, Nat2Z.inj_add, IH.
  rewrite (length_page_bytes _ _ _ Hps Hp). lia.
Qed.

(** A stream with the [ceil (size / pageSize)] pages that the stream table
    parser reads for it is valid when its size is not negative and its pages
    are inside the buffer. *)
Lemma valid_stream_of_page_count (pageSize : Z) (data : list byte)
    (si : StreamInfo) (m : list Z) :
  0 < pageSize -> 0 <= Size si ->
  Z.of_nat (length m) = ceil_div (Size si) pageSize ->
  Forall (page_in_buffer pageSize data) m ->
  valid_stream pageSize data si m.
Proof.
  intros Hps Hsz Hcnt HF. split; [|exact HF].
  rewrite Hcnt. pose proof (ceil_div_spec (Size si) pageSize Hps). lia.
Qed.

Section Reassembly.

Context {PDBStream : Type}.
Variable rt : GoRuntime.
Implicit Types (file : File PDBStream) (hdr : MSFHeader) (tbl : StreamTable).

Lemma readStreamData_loop_pages file hdr m acc :
  FileHdr file = Some hdr ->
  0 <= PageSize hdr ->
  cap (Data file) < 2 ^ 63 ->
  Forall (page_in_buffer (PageSize hdr) (live (Data file))) m ->
  exists s, readStreamData_loop rt file m acc = Ok s
            /\ live s = live acc
                 ++ concat (map (page_bytes (PageSize hdr) (live (Data file))) m).
Proof.
  intros Hh Hps Hcap HF. revert acc.
  induction HF as [|p m Hp Hm IH]; intros acc.
  - exists acc. split; [reflexivity|]. cbn [map concat]. rewrite app_nil_r. reflexivity.
  - cbn [readStreamData_loop].
    destruct (readPage_in_buffer file hdr p Hh Hps Hcap Hp) as (pg & Hpg & Hlive & _).
    rewrite Hpg. cbn [bind].
    destruct (IH (append rt acc (live pg))) as (s & Hs & Hl).
    exists s. split; [exact Hs|].
    rewrite Hl, live_append, Hlive. cbn [map concat].
    rewrite <- app_assoc. reflexivity.
Qed.

(** In a valid container, [readStreamData] of a stream number below the
    stream count returns exactly as many bytes as the stream info declares:
    the pages of the stream's page number map, concatenated in the order of
    the map and cut to the declared size; a stream of size 0 yields no
    byte. *)
Theorem readStreamData_valid file hdr tbl streamNum :
  valid_container file hdr tbl ->
  0 <= streamNum < NStreams tbl ->
  exists si m s,
    StreamInfos tbl !! Z.to_nat streamNum = Some si
    /\ PageNumMaps tbl !! Z.to_nat streamNum = Some m
    /\ readStreamData rt file streamNum = Ok s
    /\ len s = Size si
    /\ live s
       = take (Z.to_nat (Size si))
              (concat (map (page_bytes (PageSize hdr) (live (Data file))) m))
    /\ (Size si = 0 -> live s = []).
Proof.
  intros (Hh & Ht & Hps & Hcap & Hn & HF) Hi.
  pose proof (Forall2_length _ _ _ HF) as Hlen.
  destruct (index_in_range (StreamInfos tbl) streamNum) as (si & Hsi & Lsi); [lia|].
  destruct (index_in_range (PageNumMaps tbl) streamNum) as (m & Hm & Lm); [lia|].
  destruct (Forall2_lookup_lr _ _ _ _ _ _ HF Lsi Lm) as (Hsz & Hpages).
  destruct (readStreamData_loop_pages file hdr m nil_slice Hh) as (acc & Hacc & Hlive);
    [lia|exact Hcap|exact Hpages|].
  cbn [nil_slice live app] in Hlive.
  assert (Hfit : Size si <= len acc).
  { unfold len. rewrite Hlive, length_concat_pages by (lia || exact Hpages). lia. }
  destruct (reslice_within_len acc 0 (Size si)) as (s & Hs & Hl & Hk); [lia|lia|exact Hfit|].
  exists si, m, s. unfold readStreamData. rewrite Ht, Hsi. cbn [bind].
  rewrite Hm. cbn [bind]. rewrite Hacc. cbn [bind].
  assert (Hlive' : live s
    = take (Z.to_nat (Size si))
           (concat (map (page_bytes (PageSize hdr) (live (Data file))) m))).
  { rewrite Hl, Z.sub_0_r. cbn [Z.to_nat drop]. rewrite Hlive. reflexivity. }
  repeat split; try assumption; [lia|].
  intros H0. rewrite Hlive', H0. reflexivity.
Qed.

End Reassembly.

Section UnknownStream.

Context {PDBStream : Type}.
Variable rt : GoRuntime.
Implicit Types (file : File PDBStream) (tbl : StreamTable).

(** For a stream number at or beyond the stream
    count of the stream table, [readStreamData] returns no error: it panics
    with an index-out-of-range run-time panic at the lookup of the stream
    info.  The call takes the file and returns bytes only, so the file is as
    it was. *)
Theorem readStreamData_unknown_stream file tbl streamNum :
  StreamTbl file = Some tbl ->
  Z.of_nat (length (StreamInfos tbl)) = NStreams tbl ->
  NStreams tbl <= streamNum ->
  readStreamData rt file streamNum = Panic PanicIndex
  /\ (forall e, readStreamData rt file streamNum <> Err e).
Proof.
  intros Ht Hn Hge.
  assert (E : readStreamData rt file streamNum = Panic PanicIndex).
  { unfold readStreamData. rewrite Ht.
    rewrite index_out_of_range by lia. reflexivity. }
  split; [exact E|]. intros e. rewrite E. discriminate.
Qed.

End UnknownStream.

(** ** The stream table *)

Section StreamTableProofs.

Context {PDBStream : Type}.
Variable rt : GoRuntime.
Implicit Types (file : File PDBStream) (hdr : MSFHeader) (tbl : StreamTable).

Lemma readStreamTable_loop_pages file hdr post pre acc :
  FileHdr file = Some hdr ->
  0 <= PageSize hdr ->
  cap (Data file) < 2 ^ 63 ->
  Forall (page_in_buffer (PageSize hdr) (live (Data file))) post ->
  exists s,
    readStreamTable_loop rt file (pre ++ post) (length post)
      (Z.of_nat (length pre)) acc = Ok s
    /\ live s = live acc
         ++ concat (map (page_bytes (PageSize hdr) (live (Data file))) post).
Proof.
  intros Hh Hps Hcap HF. revert pre acc.
  induction HF as [|p post Hp Hpost IH]; intros pre acc.
  - exists acc. split; [reflexivity|]. cbn [map concat]. rewrite app_nil_r. reflexivity.
  - cbn [length readStreamTable_loop].
    rewrite (index_lookup (pre ++ p :: post) (length pre) p)
      by apply list_lookup_middle, eq_refl.
    cbn [bind].
    destruct (readPage_in_buffer file hdr p Hh Hps Hcap Hp) as (pg & Hpg & Hlive & _).
    rewrite Hpg. cbn [bind].
    destruct (IH (pre ++ [p]) (append rt acc (live pg))) as (s & Hs & Hl).
    rewrite <- app_assoc, length_app in Hs. cbn [app length] in Hs.
    replace (Z.of_nat (length pre) + 1) with (Z.of_nat (length pre + 1)) by lia.
    exists s. split; [exact Hs|].
    rewrite Hl, live_append, Hlive. cbn [map concat].
    rewrite <- app_assoc. reflexivity.
Qed.

Lemma readStreamTable_pages file hdr :
  FileHdr file = Some hdr ->
  0 < PageSize hdr ->
  0 <= Size (StreamTblInfo hdr) ->
  cap (Data file) < 2 ^ 63 ->
  Z.of_nat (length (PageNumMap hdr))
    = ceil_div (Size (StreamTblInfo hdr)) (PageSize hdr) ->
  Forall (page_in_buffer (PageSize hdr) (live (Data file))) (PageNumMap hdr) ->
  exists s,
    readStreamTable rt file = Ok s
    /\ live s
       = take (Z.to_nat (Size (StreamTblInfo hdr)))
              (concat (map (page_bytes (PageSize hdr) (live (Data file)))
                           (PageNumMap hdr)))
    /\ len s = Size (StreamTblInfo hdr).
Proof.
  intros Hh Hps Hsz Hcap Hcnt HF.
  destruct (readStreamTable_loop_pages file hdr (PageNumMap hdr) [] nil_slice Hh)
    as (acc & Hacc & Hlive); [lia|exact Hcap|exact HF|].
  cbn [app length nil_slice live] in Hacc, Hlive.
  assert (Hfit : Size (StreamTblInfo hdr) <= len acc).
  { unfold len. rewrite Hlive, length_concat_pages by (lia || exact HF).
    rewrite Hcnt.
    pose proof (ceil_div_spec (Size (StreamTblInfo hdr)) (PageSize hdr) Hps). lia. }
  destruct (reslice_within_len acc 0 (Size (StreamTblInfo hdr)))
    as (s & Hs & Hl & Hk); [lia|lia|exact Hfit|].
  exists s. unfold readStreamTable. rewrite Hh.
  rewrite npages_of_nonzero by lia. rewrite <- Hcnt, Nat2Z.id.
  change (Z.of_nat 0) with 0 in Hacc. rewrite Hacc. cbn [bind].
  split; [exact Hs|]. split; [|lia].
  rewrite Hl, Z.sub_0_r. cbn [Z.to_nat drop]. rewrite Hlive. reflexivity.
Qed.

Lemma parsePageNumMaps_sound file hdr infos r maps rest :
  FileHdr file = Some hdr ->
  PageSize hdr <> 0 ->
  parsePageNumMaps rt file infos r = Ok (maps, rest) ->
  Forall2 (pageNumMap_layout (PageSize hdr)) infos maps
  /\ r = concat (map encode_uint16s maps) ++ rest.
Proof.
  intros Hh Hps. revert r maps. induction infos as [|si infos IH]; intros r maps H.
  - cbn [parsePageNumMaps] in H. injection H as <- <-. split; [constructor|reflexivity].
  - cbn [parsePageNumMaps] in H. rewrite Hh in H.
    rewrite npages_of_nonzero in H by exact Hps.
    destruct (make_len 2 _) as [n| |] eqn:En in H; cbn [bind] in H; try discriminate H.
    apply make_len_Ok in En. destruct En as [Hn0 ->].
    read_step H b r1 E1.
    destruct (parsePageNumMaps rt file infos r1) as [[maps' r2]| |] eqn:E2;
      cbn [bind] in H; try discriminate H.
    injection H as <- <-.
    apply read_full_Ok in E1; [|lia]. destruct E1 as [-> L1].
    destruct (IH _ _ E2) as [HF ->].
    assert (L1' : Z.of_nat (length b)
      = 2 * Z.of_nat (Z.to_nat (ceil_div (Size si) (PageSize hdr)))) by lia.
    destruct (decode_uint16s_layout _ _ L1') as [HU HL].
    split.
    + constructor; [|exact HF]. split; [exact HU|]. rewrite HL. lia.
    + cbn [map concat]. rewrite encode_decode_uint16s by exact L1'.
      rewrite <- app_assoc. reflexivity.
Qed.

Lemma parsePageNumMaps_complete file hdr infos maps rest :
  FileHdr file = Some hdr ->
  PageSize hdr <> 0 ->
  Forall StreamInfo_layout infos ->
  Forall2 (pageNumMap_layout (PageSize hdr)) infos maps ->
  parsePageNumMaps rt file infos (concat (map encode_uint16s maps) ++ rest)
  = Ok (maps, rest).
Proof.
  intros Hh Hps HI HF. induction HF as [|si m infos maps [HU HL] HF IH].
  - reflexivity.
  - inversion HI as [|? ? Hsi HI']; subst.
    cbn [parsePageNumMaps map concat]. rewrite Hh.
    rewrite npages_of_nonzero by exact Hps.
    pose proof (ceil_div_bound (Size si) (PageSize hdr) (proj1 Hsi) Hps) as Hb.
    rewrite make_len_small by lia. cbn [bind].
    rewrite <- app_assoc.
    rewrite read_full_app_n by (rewrite length_encode_uint16s; lia).
    cbn [bind]. rewrite (IH HI'). cbn [bind].
    rewrite <- HL, Nat2Z.id, decode_encode_uint16s by exact HU. reflexivity.
Qed.

Lemma parseStreamTable_sound file hdr r tbl rest :
  FileHdr file = Some hdr ->
  PageSize hdr <> 0 ->
  parseStreamTable rt file r = Ok (tbl, rest) ->
  directory_layout (PageSize hdr) tbl /\ r = encode_StreamTable tbl ++ rest.
Proof.
  intros Hh Hps H. unfold parseStreamTable in H.
  read_step H b0 r1 E0. read_step H b1 r2 E1.
  destruct (parsePageNumMaps rt file _ r2) as [[maps r3]| |] eqn:E2;
    cbn [bind] in H; try discriminate H.
  injection H as <- <-.
  apply read_full_Ok in E0; [|lia]. destruct E0 as [-> L0].
  pose proof (decode_uint32_range b0) as R0.
  apply read_full_Ok in E1; [|unfold is_uint32 in R0; lia]. destruct E1 as [-> L1].
  destruct (parsePageNumMaps_sound _ _ _ _ _ _ Hh Hps E2) as [HF ->].
  assert (L1' : Z.of_nat (length b1)
                = 8 * Z.of_nat (Z.to_nat (decode_uint32 b0)))
    by (unfold is_uint32 in R0; lia).
  destruct (decode_StreamInfos_layout _ _ L1') as [HI HL].
  split.
  - unfold directory_layout. cbn [NStreams StreamInfos PageNumMaps].
    refine (conj _ (conj _ (conj HI HF))).
    + apply R0. lia.
    + rewrite HL. unfold is_uint32 in R0. lia.
  - unfold encode_StreamTable. cbn [NStreams StreamInfos PageNumMaps].
    rewrite encode_decode_uint32 by lia.
    rewrite encode_decode_StreamInfos by exact L1'.
    rewrite <- !app_assoc. reflexivity.
Qed.

Lemma parseStreamTable_complete file hdr tbl rest :
  FileHdr file = Some hdr ->
  PageSize hdr <> 0 ->
  directory_layout (PageSize hdr) tbl ->
  parseStreamTable rt file (encode_StreamTable tbl ++ rest) = Ok (tbl, rest).
Proof.
  intros Hh Hps (HN & HL & HI & HF).
  destruct tbl as [n infos maps]. cbn [NStreams StreamInfos PageNumMaps] in *.
  unfold encode_StreamTable, parseStreamTable.
  cbn [NStreams StreamInfos PageNumMaps].
  rewrite <- !app_assoc.
  rewrite (read_full_app_n 4) by (rewrite length_encode_uint32; reflexivity).
  cbn [bind]. rewrite decode_encode_uint32 by exact HN.
  rewrite read_full_app_n by (rewrite length_encode_StreamInfos; lia).
  cbn [bind]. rewrite <- HL, Nat2Z.id, decode_encode_StreamInfos by exact HI.
  rewrite (parsePageNumMaps_complete _ _ _ _ _ Hh Hps HI HF). reflexivity.
Qed.

(** C2.  The stream table is rebuilt in two phases.  First
    ([readStreamTable]) the pages named by the page number map of the header
    are concatenated in the order of the map and the result is cut to exactly
    the size the header declares.  Then ([parseStreamTable]) the bytes are
    decoded strictly in order: a 4-byte little-endian stream count, that many
    8-byte stream infos, and for each stream in declared order
    [ceil (size / pageSize)] 2-byte page numbers; the parse succeeds exactly
    on the inputs that begin with a table laid out this way. *)
Theorem stream_table_two_phases file hdr :
  FileHdr file = Some hdr ->
  0 < PageSize hdr ->
  0 <= Size (StreamTblInfo hdr) ->
  cap (Data file) < 2 ^ 63 ->
  Z.of_nat (length (PageNumMap hdr))
    = ceil_div (Size (StreamTblInfo hdr)) (PageSize hdr) ->
  Forall (page_in_buffer (PageSize hdr) (live (Data file))) (PageNumMap hdr) ->
  (exists s,
     readStreamTable rt file = Ok s
     /\ live s
        = take (Z.to_nat (Size (StreamTblInfo hdr)))
               (concat (map (page_bytes (PageSize hdr) (live (Data file)))
                            (PageNumMap hdr)))
     /\ len s = Size (StreamTblInfo hdr))
  /\ (forall r tbl rest,
        parseStreamTable rt file r = Ok (tbl, rest)
        <-> directory_layout (PageSize hdr) tbl
            /\ r = encode_StreamTable tbl ++ rest).
Proof.
  intros Hh Hps Hsz Hcap Hcnt HF. split.
  - apply readStreamTable_pages; assumption.
  - intros r tbl rest. split.
    + apply (parseStreamTable_sound file hdr); [exact Hh|lia].
    + intros [Hl ->]. apply (parseStreamTable_complete file hdr); [exact Hh|lia|exact Hl].
Qed.

End StreamTableProofs.

(** ** Input that ends too early *)

Lemma read_full_truncated (n : Z) (r : reader) :
  Z.of_nat (length r) < n ->
  exists e, read_full n r = Err e /\ truncated_data e.
Proof.
  intros Hn. destruct (read_full_short n r Hn) as [H|H]; rewrite H;
    eexists; (split; [reflexivity|]); [left|right]; reflexivity.
Qed.

Section Truncation.

Context {PDBStream : Type}.
Variable rt : GoRuntime.
Implicit Types (file : File PDBStream) (hdr : MSFHeader) (tbl : StreamTable).

(** A proper prefix of the bytes of a well-formed stream table is not
    decoded: the parse runs out of input. *)
Lemma parsePageNumMaps_truncated file hdr infos maps (k : nat) :
  FileHdr file = Some hdr ->
  PageSize hdr <> 0 ->
  Forall StreamInfo_layout infos ->
  Forall2 (pageNumMap_layout (PageSize hdr)) infos maps ->
  (k < length (concat (map encode_uint16s maps)))%nat ->
  exists e,
    parsePageNumMaps rt file infos (take k (concat (map encode_uint16s maps)))
    = Err e
    /\ truncated_data e.
Proof.
  intros Hh Hps HI HF. revert k.
  induction HF as [|si m infos maps [HU HL] HF IH]; intros k Hk.
  - cbn [map concat length] in Hk. lia.
  - inversion HI as [|? ? Hsi HI']; subst.
    cbn [map concat] in *. rewrite length_app in Hk.
    cbn [parsePageNumMaps]. rewrite Hh.
    rewrite npages_of_nonzero by exact Hps.
    pose proof (ceil_div_bound (Size si) (PageSize hdr) (proj1 Hsi) Hps) as Hb.
    rewrite make_len_small by lia. cbn [bind].
    pose proof (length_encode_uint16s m) as Lm.
    rewrite take_app.
    destruct (Nat.lt_ge_cases k (length (encode_uint16s m))) as [Hlt|Hge].
    + destruct (read_full_truncated (2 * ceil_div (Size si) (PageSize hdr))
                  (take k (encode_uint16s m)
                     ++ take (k - length (encode_uint16s m))
                          (concat (map encode_uint16s maps))))
        as (e & He & Ht).
      { rewrite length_app, !length_take. lia. }
      exists e. rewrite He. split; [reflexivity|exact Ht].
    + rewrite take_ge by lia.
      rewrite read_full_app_n by lia. cbn [bind].
      destruct (IH HI' (k - length (encode_uint16s m))%nat) as (e & He & Ht); [lia|].
      exists e. rewrite He. split; [reflexivity|exact Ht].
Qed.

Lemma parseStreamTable_truncated file hdr tbl (k : nat) :
  FileHdr file = Some hdr ->
  PageSize hdr <> 0 ->
  directory_layout (PageSize hdr) tbl ->
  (k < length (encode_StreamTable tbl))%nat ->
  exists e,
    parseStreamTable rt file (take k (encode_StreamTable tbl)) = Err e
    /\ truncated_data e.
Proof.
  intros Hh Hps (HN & HL & HI & HF) Hk.
  destruct tbl as [n infos maps]. cbn [NStreams StreamInfos PageNumMaps] in *.
  unfold encode_StreamTable in *. cbn [NStreams StreamInfos PageNumMaps] in *.
  rewrite !length_app, length_encode_uint32 in Hk.
  pose proof (length_encode_StreamInfos infos) as L1.
  unfold parseStreamTable. rewrite take_app, length_encode_uint32.
  destruct (Nat.lt_ge_cases k 4) as [Hlt|Hge].
  - destruct (read_full_truncated 4
                (take k (encode_uint32 n)
                   ++ take (k - 4)
                        (concat (map encode_StreamInfo infos)
                           ++ concat (map encode_uint16s maps))))
      as (e & He & Ht).
    { rewrite length_app, !length_take, length_encode_uint32. lia. }
    exists e. rewrite He. split; [reflexivity|exact Ht].
  - rewrite take_ge by (rewrite length_encode_uint32; lia).
    rewrite (read_full_app_n 4) by (rewrite length_encode_uint32; reflexivity).
    cbn [bind]. rewrite decode_encode_uint32 by exact HN.
    rewrite take_app.
    destruct (Nat.lt_ge_cases (k - 4) (length (concat (map encode_StreamInfo infos))))
      as [Hlt|Hge'].
    + destruct (read_full_truncated (8 * n)
                  (take (k - 4) (concat (map encode_StreamInfo infos))
                     ++ take (k - 4 - length (concat (map encode_StreamInfo infos)))
                          (concat (map encode_uint16s maps))))
        as (e & He & Ht).
      { rewrite length_app, !length_take. lia. }
      exists e. rewrite He. split; [reflexivity|exact Ht].
    + rewrite take_ge by lia.
      rewrite read_full_app_n by lia. cbn [bind].
      rewrite <- HL, Nat2Z.id, decode_encode_StreamInfos by exact HI.
      destruct (parsePageNumMaps_truncated file hdr infos maps
                  (k - 4 - length (concat (map encode_StreamInfo infos)))%nat
                  Hh Hps HI HF) as (e & He & Ht); [lia|].
      exists e. rewrite He. split; [reflexivity|exact Ht].
Qed.

Lemma readPage_Ok_or_panic file hdr pageNum :
  FileHdr file = Some hdr ->
  (exists s, readPage file pageNum = Ok s)
  \/ readPage file pageNum = Panic PanicSliceBounds.
Proof.
  intros Hh. unfold readPage, reslice. rewrite Hh.
  destruct (_ && _); [left; eexists; reflexivity|right; reflexivity].
Qed.

Lemma readPage_beyond_cap file hdr pageNum :
  FileHdr file = Some hdr ->
  is_int32 (PageSize hdr) ->
  is_uint16 pageNum ->
  cap (Data file) < pageNum * PageSize hdr + PageSize hdr ->
  readPage file pageNum = Panic PanicSliceBounds.
Proof.
  unfold is_int32, is_uint16. intros Hh Hps Hp Hcap.
  rewrite (readPage_no_wrap file hdr pageNum Hh) by (unfold is_int; nia).
  apply reslice_out_of_cap. right. right. exact Hcap.
Qed.

Lemma readStreamTable_loop_panics file hdr post pre acc :
  FileHdr file = Some hdr ->
  is_int32 (PageSize hdr) ->
  Forall is_uint16 post ->
  Exists (fun p => cap (Data file) < p * PageSize hdr + PageSize hdr) post ->
  readStreamTable_loop rt file (pre ++ post) (length post)
    (Z.of_nat (length pre)) acc = Panic PanicSliceBounds.
Proof.
  intros Hh Hps HU. revert pre acc.
  induction HU as [|p post Hp HU IH]; intros pre acc HE.
  - inversion HE.
  - cbn [length readStreamTable_loop].
    rewrite (index_lookup (pre ++ p :: post) (length pre) p)
      by apply list_lookup_middle, eq_refl.
    cbn [bind].
    destruct (readPage_Ok_or_panic file hdr p Hh) as [[pg Hpg]|Hpanic].
    + rewrite Hpg. cbn [bind].
      inversion HE as [? ? Hbad|? ? Htail]; subst.
      * rewrite (readPage_beyond_cap file hdr p Hh Hps Hp Hbad) in Hpg. discriminate.
      * specialize (IH (pre ++ [p]) (append rt acc (live pg)) Htail).
        rewrite <- app_assoc, length_app in IH. cbn [app length] in IH.
        replace (Z.of_nat (length pre) + 1) with (Z.of_nat (length pre + 1)) by lia.
        exact IH.
    + rewrite Hpanic. reflexivity.
Qed.

Lemma parsePageNumMaps_short file hdr done : forall infos si r',
  FileHdr file = Some hdr ->
  PageSize hdr <> 0 ->
  Forall StreamInfo_layout infos ->
  Forall2 (pageNumMap_layout (PageSize hdr)) (take (length done) infos) done ->
  infos !! length done = Some si ->
  Z.of_nat (length r') < 2 * ceil_div (Size si) (PageSize hdr) ->
  exists e,
    parsePageNumMaps rt file infos (concat (map encode_uint16s done) ++ r') = Err e
    /\ truncated_data e.
Proof.
  induction done as [|m done IH]; intros infos si r' Hh Hps HI HF Hsi Hshort.
  - destruct infos as [|s0 infos]; [discriminate Hsi|].
    cbn [length lookup list_lookup] in Hsi. injection Hsi as ->.
    inversion HI as [|? ? Hl HI']; subst.
    cbn [map concat app parsePageNumMaps]. rewrite Hh.
    rewrite npages_of_nonzero by exact Hps.
    pose proof (ceil_div_bound (Size si) (PageSize hdr) (proj1 Hl) Hps) as Hb.
    rewrite make_len_small by lia. cbn [bind].
    destruct (read_full_truncated _ r' Hshort) as (e & He & Ht).
    exists e. rewrite He. split; [reflexivity|exact Ht].
  - destruct infos as [|s0 infos]; [discriminate Hsi|].
    cbn [length lookup list_lookup take] in Hsi, HF.
    inversion HI as [|? ? Hl HI']; subst.
    inversion HF as [|? ? ? ? [HU HL] HF']; subst.
    cbn [map concat parsePageNumMaps]. rewrite Hh.
    rewrite npages_of_nonzero by exact Hps.
    pose proof (ceil_div_bound (Size s0) (PageSize hdr) (proj1 Hl) Hps) as Hb.
    rewrite make_len_small by lia. cbn [bind].
    rewrite <- app_assoc.
    rewrite read_full_app_n by (rewrite length_encode_uint16s; lia).
    cbn [bind].
    destruct (IH infos si r' Hh Hps HI' HF' Hsi Hshort) as (e & He & Ht).
    exists e. rewrite He. split; [reflexivity|exact Ht].
Qed.

Lemma parseStreamTable_short file hdr r remaining need :
  FileHdr file = Some hdr ->
  PageSize hdr <> 0 ->
  directory_field (PageSize hdr) r remaining need ->
  Z.of_nat (length remaining) < need ->
  exists e, parseStreamTable rt file r = Err e /\ truncated_data e.
Proof.
  intros Hh Hps Hf Hshort. unfold parseStreamTable.
  destruct Hf as [r|b0 r1 L0|b0 b1 done si r' L0 L1 HF Hsi].
  - destruct (read_full_truncated 4 r Hshort) as (e & He & Ht).
    exists e. rewrite He. split; [reflexivity|exact Ht].
  - rewrite (read_full_app_n 4) by lia. cbn [bind].
    destruct (read_full_truncated _ r1 Hshort) as (e & He & Ht).
    exists e. rewrite He. split; [reflexivity|exact Ht].
  - rewrite (read_full_app_n 4) by lia. cbn [bind].
    rewrite read_full_app_n by exact L1. cbn [bind].
    pose proof (decode_uint32_range b0 L0) as R0. unfold is_uint32 in R0.
    destruct (decode_StreamInfos_layout (Z.to_nat (decode_uint32 b0)) b1) as [HI _];
      [lia|].
    destruct (parsePageNumMaps_short file hdr done _ si r' Hh Hps HI HF Hsi Hshort)
      as (e & He & Ht).
    exists e. rewrite He. split; [reflexivity|exact Ht].
Qed.

(** Decoding the stream table fails with a
    recoverable error, [io.EOF] or [io.ErrUnexpectedEOF], whenever fewer
    bytes remain than the next declared field requires: the stream count,
    the stream infos, or the page numbers of a stream.  A stream table one
    of whose pages reaches beyond the capacity of the buffer is not reported
    as an error: [readStreamTable] panics with a slice-bounds run-time panic,
    before any decoding. *)
Theorem stream_table_truncated file hdr :
  FileHdr file = Some hdr ->
  superblock_layout hdr ->
  PageSize hdr <> 0 ->
  (forall r remaining need,
     directory_field (PageSize hdr) r remaining need ->
     Z.of_nat (length remaining) < need ->
     exists e, parseStreamTable rt file r = Err e /\ truncated_data e)
  /\ (Exists (fun p => cap (Data file) < p * PageSize hdr + PageSize hdr)
             (PageNumMap hdr) ->
      readStreamTable rt file = Panic PanicSliceBounds).
Proof.
  intros Hh (_ & Hps & _ & _ & _ & HU & HL) Hnz. split.
  - intros r remaining need Hf Hshort.
    apply (parseStreamTable_short file hdr r remaining need); assumption.
  - intros HE. unfold readStreamTable. rewrite Hh.
    rewrite npages_of_nonzero by exact Hnz. rewrite <- HL, Nat2Z.id.
    pose proof (readStreamTable_loop_panics file hdr (PageNumMap hdr) [] nil_slice
                  Hh Hps HU HE) as Hp.
    cbn [app length] in Hp. change (Z.of_nat 0) with 0 in Hp.
    rewrite Hp. reflexivity.
Qed.

End Truncation.

(** ** Loading a file *)

Section Loading.

Context {PDBStream : Type}.
Variable rt : GoRuntime.
Variable parsePDBStream : File PDBStream -> reader -> result PDBStream.
Implicit Types (file : File PDBStream) (hdr : MSFHeader) (tbl : StreamTable).

Lemma readPage_ext file file' pageNum :
  FileHdr file = FileHdr file' -> Data file = Data file' ->
  readPage file pageNum = readPage file' pageNum.
Proof. intros Hh Hd. unfold readPage. rewrite Hh, Hd. reflexivity. Qed.

Lemma parseStream_Ok file file' streamNum :
  parseStream rt parsePDBStream file streamNum = Ok file' ->
  FileHdr file' = FileHdr file /\ FreePageMap file' = FreePageMap file
  /\ StreamTbl file' = StreamTbl file /\ Data file' = Data file.
Proof.
  unfold parseStream.
  destruct (readStreamData rt file streamNum); cbn [bind]; try discriminate.
  destruct (_ =? _).
  - destruct (parsePDBStream file _); cbn [bind]; try discriminate.
    intros [= <-]. repeat split.
  - intros [= <-]. repeat split.
Qed.

Lemma ParseFile_loop_Ok todo : forall file streamNum file',
  ParseFile_loop rt parsePDBStream file todo streamNum = Ok file' ->
  FileHdr file' = FileHdr file /\ FreePageMap file' = FreePageMap file
  /\ StreamTbl file' = StreamTbl file /\ Data file' = Data file.
Proof.
  induction todo as [|todo IH]; intros file streamNum file' H.
  - cbn [ParseFile_loop] in H. injection H as <-. repeat split.
  - cbn [ParseFile_loop] in H.
    destruct (parseStream rt parsePDBStream file streamNum) as [f1| |] eqn:E.
    + destruct (parseStream_Ok _ _ _ E) as (H1 & H2 & H3 & H4).
      destruct (IH _ _ _ H) as (G1 & G2 & G3 & G4).
      repeat split; congruence.
    + exact (IH _ _ _ H).
    + discriminate H.
Qed.

Lemma ParseFile_stages buf file :
  header_stages rt buf file ->
  exists tbl, StreamTbl file = Some tbl
    /\ ParseFile rt parsePDBStream buf
       = ParseFile_loop rt parsePDBStream file (Z.to_nat (NStreams tbl)) 0.
Proof.
  intros (hdr & rest & fpmData & tblData & tbl & rest' & H1 & H2 & H3 & H4 & ->).
  exists tbl. split; [reflexivity|].
  unfold ParseFile. cbn [Data FileHdr FreePageMap StreamTbl Streams].
  rewrite H1. cbn [bind]. rewrite H2. cbn [bind]. rewrite H3. cbn [bind].
  rewrite H4. cbn [bind]. reflexivity.
Qed.

Lemma ParseFile_Ok buf file' :
  ParseFile rt parsePDBStream buf = Ok file' ->
  exists file tbl,
    header_stages rt buf file
    /\ StreamTbl file = Some tbl
    /\ ParseFile_loop rt parsePDBStream file (Z.to_nat (NStreams tbl)) 0 = Ok file'.
Proof.
  unfold ParseFile. cbn [Data FileHdr FreePageMap StreamTbl Streams]. intros H.
  destruct (parseMSFHeader rt (NewReader buf)) as [[hdr rest]| |] eqn:H1;
    cbn [bind] in H; try discriminate H.
  destruct (readPage _ (FreePageMapPageNum hdr)) as [fpmData| |] eqn:H2;
    cbn [bind] in H; try discriminate H.
  destruct (readStreamTable rt _) as [tblData| |] eqn:H3;
    cbn [bind] in H; try discriminate H.
  destruct (parseStreamTable rt _ _) as [[tbl rest']| |] eqn:H4;
    cbn [bind] in H; try discriminate H.
  exists (mkFile (Some hdr) (Some (mkFPM fpmData)) (Some tbl) [] buf), tbl.
  split; [|split; [reflexivity|exact H]].
  exists hdr, rest, fpmData, tblData, tbl, rest'. repeat split; assumption.
Qed.

Lemma parseMSFHeader_ranges (r : reader) hdr rest :
  parseMSFHeader rt r = Ok (hdr, rest) ->
  is_int32 (PageSize hdr) /\ is_uint16 (FreePageMapPageNum hdr)
  /\ is_uint16 (NPages hdr).
Proof.
  intros H. unfold parseMSFHeader in H.
  read_step H magic r1 E1.
  destruct (bytes_eqb magic msfSignature); cbn [negb] in H; [|discriminate H].
  read_step H b1 r2 E2. read_step H b2 r3 E3. read_step H b3 r4 E4.
  read_step H b4 r5 E5.
  destruct (make_len 2 _) as [n| |] in H; cbn [bind] in H; try discriminate H.
  read_step H b5 r6 E6.
  injection H as <- <-.
  cbn [PageSize FreePageMapPageNum NPages].
  apply read_full_Ok in E2, E3, E4; try lia.
  destruct E2 as [_ L2], E3 as [_ L3], E4 as [_ L4].
  refine (conj _ (conj _ _)).
  - apply decode_int32_range; lia.
  - apply decode_uint16_range; lia.
  - apply decode_uint16_range; lia.
Qed.

Lemma parseStreamTable_counts file (r : reader) tbl rest :
  parseStreamTable rt file r = Ok (tbl, rest) ->
  is_uint32 (NStreams tbl)
  /\ Z.of_nat (length (StreamInfos tbl)) = NStreams tbl.
Proof.
  intros H. unfold parseStreamTable in H.
  read_step H b0 r1 E0. read_step H b1 r2 E1.
  destruct (parsePageNumMaps rt file _ r2) as [[maps r3]| |];
    cbn [bind] in H; try discriminate H.
  injection H as <- <-. cbn [NStreams StreamInfos].
  apply read_full_Ok in E0; [|lia]. destruct E0 as [_ L0].
  pose proof (decode_uint32_range b0) as R0. unfold is_uint32 in *.
  apply read_full_Ok in E1; [|lia]. destruct E1 as [_ L1].
  split; [apply R0; lia|].
  destruct (decode_StreamInfos_layout (Z.to_nat (decode_uint32 b0)) b1) as [_ HL];
    [lia|].
  rewrite HL. lia.
Qed.

(** C6.  When the first 44 bytes of the input are not, byte for byte, the
    MSF signature, [ParseFile] fails and returns no file: with the
    invalid-signature error when there are 44 bytes to compare, and with the
    end-of-input error of the read when there are fewer. *)
Theorem ParseFile_bad_magic buf :
  take 44 (live buf) <> msfSignature ->
  (44 <= len buf ->
   ParseFile rt parsePDBStream buf = Err ErrInvalidMSFSignature)
  /\ (len buf < 44 ->
      exists e, ParseFile rt parsePDBStream buf = Err e /\ truncated_data e).
Proof.
  intros Hne. unfold ParseFile, parseMSFHeader, NewReader, len.
  cbn [Data]. split; intros Hlen.
  - unfold read_full at 1.
    destruct (Z.leb_spec 44 (Z.of_nat (length (live buf)))); [|lia].
    cbn [bind]. change (Z.to_nat 44) with 44%nat.
    destruct (bytes_eqb (take 44 (live buf)) msfSignature) eqn:E.
    + apply bytes_eqb_eq in E. contradiction.
    + reflexivity.
  - destruct (read_full_truncated 44 (live buf) Hlen) as (e & He & Ht).
    exists e. rewrite He. split; [reflexivity|exact Ht].
Qed.

End Loading.

(** ** The free page map *)

Lemma mask_testbit (b : byte) (j : Z) :
  0 <= j < 8 ->
  negb (Z.land (byte_to_Z b) (Z.shiftl 1 j mod 256) =? 0)
  = Z.testbit (byte_to_Z b) j.
Proof.
  intros Hj.
  assert (Hc : j = 0 \/ j = 1 \/ j = 2 \/ j = 3 \/ j = 4 \/ j = 5 \/ j = 6 \/ j = 7)
    by lia.
  destruct Hc as [->|[->|[->|[->|[->|[->|[->| ->]]]]]]];
    destruct b; reflexivity.
Qed.

Lemma IsFree_bit (fpm : FPM) (pageNum : Z) (b : byte) :
  0 <= pageNum ->
  live (PageBits fpm) !! Z.to_nat (pageNum / 8) = Some b ->
  IsFree fpm pageNum = Ok (Z.testbit (byte_to_Z b) (pageNum mod 8)).
Proof.
  intros Hp Hb. unfold IsFree.
  rewrite Z.quot_div_nonneg, Z.rem_mod_nonneg by lia.
  pose proof (Z.mod_pos_bound pageNum 8) as Hj.
  destruct (Z.ltb_spec (pageNum mod 8) 0); [lia|].
  rewrite <- (Z2Nat.id (pageNum / 8)) at 1 by (apply Z.div_pos; lia).
  rewrite (index_lookup _ _ _ Hb). cbn [bind].
  rewrite mask_testbit by lia. reflexivity.
Qed.

Lemma IsFree_in_bitmap (fpm : FPM) (pageNum : Z) :
  0 <= pageNum < 8 * len (PageBits fpm) ->
  exists free, IsFree fpm pageNum = Ok free.
Proof.
  intros Hp. unfold len in Hp.
  destruct (lookup_lt_is_Some_2 (live (PageBits fpm)) (Z.to_nat (pageNum / 8)))
    as [b Hb].
  { assert (pageNum / 8 < Z.of_nat (length (live (PageBits fpm))))
      by (apply Z.div_lt_upper_bound; lia).
    pose proof (Z.div_pos pageNum 8). lia. }
  eexists. apply (IsFree_bit fpm pageNum b); [lia|exact Hb].
Qed.

Lemma IsFree_beyond_bitmap (fpm : FPM) (pageNum : Z) :
  8 * len (PageBits fpm) <= pageNum ->
  IsFree fpm pageNum = Panic PanicIndex.
Proof.
  intros Hp. unfold len in Hp. unfold IsFree.
  assert (H0 : 0 <= pageNum) by lia.
  rewrite Z.quot_div_nonneg, Z.rem_mod_nonneg by lia.
  pose proof (Z.mod_pos_bound pageNum 8) as Hj.
  destruct (Z.ltb_spec (pageNum mod 8) 0); [lia|].
  rewrite index_out_of_range; [reflexivity|].
  right. apply Z.div_le_lower_bound; lia.
Qed.

Section FreePages.

Context {PDBStream : Type}.
Variable rt : GoRuntime.
Variable parsePDBStream : File PDBStream -> reader -> result PDBStream.
Implicit Types (file : File PDBStream) (hdr : MSFHeader) (fpm : FPM).

Lemma ParseFile_free_page_map buf file :
  ParseFile rt parsePDBStream buf = Ok file ->
  exists hdr fpm,
    FileHdr file = Some hdr /\ FreePageMap file = Some fpm /\ Data file = buf
    /\ is_int32 (PageSize hdr) /\ is_uint16 (FreePageMapPageNum hdr)
    /\ readPage file (FreePageMapPageNum hdr) = Ok (PageBits fpm).
Proof.
  intros H. destruct (ParseFile_Ok rt parsePDBStream buf file H)
    as (f0 & tbl & Hst & Ht & Hloop).
  destruct (ParseFile_loop_Ok rt parsePDBStream _ _ _ _ Hloop) as (G1 & G2 & G3 & G4).
  destruct Hst as (hdr & rest & fpmData & tblData & tbl' & rest' & H1 & H2 & H3 & H4 & ->).
  cbn [FileHdr FreePageMap StreamTbl Data] in *.
  destruct (parseMSFHeader_ranges rt _ _ _ H1) as (R1 & R2 & _).
  exists hdr, (mkFPM fpmData).
  refine (conj G1 (conj G2 (conj G4 (conj R1 (conj R2 _))))).
  cbn [PageBits]. rewrite <- H2. apply readPage_ext; assumption.
Qed.

(** C8.  In a file that [ParseFile] loaded, the bitmap of the free page map
    is the one page [readPage] returns for the free-page-map page number of
    the header, kept as it is; and [IsFree] of a page number whose bitmap
    byte [pageNum / 8] exists returns bit [pageNum mod 8] of that byte
    (1 = free, 0 = in use). *)
Theorem free_page_map_bits buf file :
  ParseFile rt parsePDBStream buf = Ok file ->
  exists hdr fpm,
    FileHdr file = Some hdr
    /\ FreePageMap file = Some fpm
    /\ readPage file (FreePageMapPageNum hdr) = Ok (PageBits fpm)
    /\ forall pageNum b,
         0 <= pageNum ->
         live (PageBits fpm) !! Z.to_nat (pageNum / 8) = Some b ->
         IsFree fpm pageNum = Ok (Z.testbit (byte_to_Z b) (pageNum mod 8)).
Proof.
  intros H.
  destruct (ParseFile_free_page_map buf file H)
    as (hdr & fpm & Hh & Hf & _ & _ & _ & Hr).
  exists hdr, fpm. repeat apply conj; try assumption.
  intros pageNum b. apply IsFree_bit.
Qed.

(** C9, as the code has it.  In a file that [ParseFile] loaded, the
    free-page-map page lies within the capacity of the buffer and the bitmap
    holds exactly one page; [IsFree] stays inside the bitmap for the page
    numbers from 0 up to 8 times the page size, and for every larger page
    number, below the page count of the header or not, it panics with an
    index-out-of-range run-time panic. *)
Theorem free_page_map_bounds buf file :
  ParseFile rt parsePDBStream buf = Ok file ->
  exists hdr fpm,
    FileHdr file = Some hdr
    /\ FreePageMap file = Some fpm
    /\ 0 <= FreePageMapPageNum hdr * PageSize hdr
    /\ FreePageMapPageNum hdr * PageSize hdr + PageSize hdr <= cap buf
    /\ len (PageBits fpm) = PageSize hdr
    /\ forall pageNum,
         (0 <= pageNum < 8 * PageSize hdr ->
          exists free, IsFree fpm pageNum = Ok free)
         /\ (8 * PageSize hdr <= pageNum ->
             IsFree fpm pageNum = Panic PanicIndex).
Proof.
  intros H.
  destruct (ParseFile_free_page_map buf file H)
    as (hdr & fpm & Hh & Hf & Hd & Rps & Rfpm & Hr).
  exists hdr, fpm.
  unfold readPage in Hr. rewrite Hh, Hd in Hr. unfold int_mul, int_add in Hr.
  unfold is_int32, is_uint16 in *.
  rewrite (wrap_int_id (FreePageMapPageNum hdr * PageSize hdr)) in Hr
    by (unfold is_int; nia).
  rewrite wrap_int_id in Hr by (unfold is_int; nia).
  apply reslice_Ok in Hr. destruct Hr as (H0 & Hle & Hcap & Hlen).
  assert (Hl : len (PageBits fpm) = PageSize hdr) by lia.
  repeat apply conj; try assumption.
  intros pageNum. split; intros Hp.
  - apply IsFree_in_bitmap. lia.
  - apply IsFree_beyond_bitmap. lia.
Qed.

End FreePages.

(** ** The stream dispatcher *)

Section Dispatch.

Context {PDBStream : Type}.
Variable rt : GoRuntime.
Variable parsePDBStream : File PDBStream -> reader -> result PDBStream.
Implicit Types (file : File PDBStream) (tbl : StreamTable).

Lemma parseStream_unimplemented file streamNum s :
  readStreamData rt file streamNum = Ok s ->
  0 <= streamNum < 2 ^ 32 -> streamNum <> 1 ->
  parseStream rt parsePDBStream file streamNum = Ok file.
Proof.
  intros Hs Hr Hne. unfold parseStream, StreamIDPDBStream. rewrite Hs. cbn [bind].
  rewrite Z.mod_small by lia.
  destruct (Z.eqb_spec streamNum 1); [lia|reflexivity].
Qed.

Lemma parseStream_decode_error file s e :
  readStreamData rt file 1 = Ok s ->
  parsePDBStream file (NewReader s) = Err e ->
  parseStream rt parsePDBStream file 1 = Err e.
Proof.
  intros Hs He. unfold parseStream. rewrite Hs. cbn [bind].
  change (1 mod 2 ^ 32 =? StreamIDPDBStream) with true. cbn iota.
  rewrite He. reflexivity.
Qed.

Lemma ParseFile_loop_errors_dropped file todo : forall streamNum,
  0 <= streamNum -> streamNum + Z.of_nat todo <= 2 ^ 32 ->
  (forall i, streamNum <= i < streamNum + Z.of_nat todo ->
             exists s, readStreamData rt file i = Ok s) ->
  (forall s, readStreamData rt file 1 = Ok s ->
             exists e, parsePDBStream file (NewReader s) = Err e) ->
  ParseFile_loop rt parsePDBStream file todo streamNum = Ok file.
Proof.
  induction todo as [|todo IH]; intros streamNum H0 Hmax Hread Hdec.
  - reflexivity.
  - cbn [ParseFile_loop].
    destruct (Hread streamNum) as [s Hs]; [lia|].
    assert (Hnext : ParseFile_loop rt parsePDBStream file todo (streamNum + 1) = Ok file).
    { apply IH; [lia|lia| |exact Hdec]. intros i Hi. apply Hread. lia. }
    destruct (Z.eq_dec streamNum 1) as [->|Hne].
    + destruct (Hdec s Hs) as [e He].
      rewrite (parseStream_decode_error file s e Hs He). exact Hnext.
    + rewrite (parseStream_unimplemented file streamNum s Hs) by lia. exact Hnext.
Qed.

(** C10.  [ParseFile] drops the error of [parseStream] for every stream
    number.  When the stages before the dispatch have built [file] and every
    stream can be read, a decoder that fails on stream 1 makes
    [parseStream] return its error for stream 1, the streams without a
    decoder make it return nil, and in both cases the load goes on:
    [ParseFile] returns [file], fully loaded, with a nil error and with no
    decoded stream in [Streams]. *)
Theorem ParseFile_drops_stream_errors buf file tbl :
  header_stages rt buf file ->
  StreamTbl file = Some tbl ->
  (forall i, 0 <= i < NStreams tbl -> exists s, readStreamData rt file i = Ok s) ->
  (forall s, readStreamData rt file 1 = Ok s ->
             exists e, parsePDBStream file (NewReader s) = Err e) ->
  ParseFile rt parsePDBStream buf = Ok file
  /\ Streams file = []
  /\ (1 < NStreams tbl -> exists e, parseStream rt parsePDBStream file 1 = Err e)
  /\ (forall i, 0 <= i < NStreams tbl -> i <> 1 ->
                parseStream rt parsePDBStream file i = Ok file).
Proof.
  intros Hst Ht Hread Hdec.
  destruct (ParseFile_stages rt parsePDBStream buf file Hst) as (tbl' & Ht' & HP).
  rewrite Ht in Ht'. injection Ht' as <-.
  assert (HN : is_uint32 (NStreams tbl)).
  { destruct Hst as (hdr & rest & fpmData & tblData & tbl' & rest' & _ & _ & _ & H4 & ->).
    cbn [StreamTbl] in Ht. injection Ht as ->.
    apply (parseStreamTable_counts rt _ _ _ _ H4). }
  unfold is_uint32 in HN.
  refine (conj _ (conj _ (conj _ _))).
  - rewrite HP. apply ParseFile_loop_errors_dropped; [lia|lia| |exact Hdec].
    intros i Hi. apply Hread. lia.
  - destruct Hst as (? & ? & ? & ? & ? & ? & _ & _ & _ & _ & ->). reflexivity.
  - intros H1. destruct (Hread 1) as [s Hs]; [lia|].
    destruct (Hdec s Hs) as [e He]. exists e.
    apply (parseStream_decode_error file s e Hs He).
  - intros i Hi Hne. destruct (Hread i Hi) as [s Hs].
    apply (parseStream_unimplemented file i s Hs); lia.
Qed.

End Dispatch.

(** ** The small container, loaded *)

Lemma demo_loads :
  ParseFile demo_rt failing_decoder demo_buf = Ok demo_file.
Proof. vm_compute. reflexivity. Defined.

Lemma demo_superblock_layout : superblock_layout demo_hdr.
Proof.
  unfold superblock_layout, StreamInfo_layout, is_int32, is_uint16.
  cbn [demo_hdr Magic PageSize FreePageMapPageNum NPages StreamTblInfo
       PageNumMap Size Unknown].
  refine (conj eq_refl (conj _ (conj _ (conj _ (conj _ (conj _ eq_refl)))))).
  - lia.
  - lia.
  - lia.
  - lia.
  - constructor; [lia|constructor].
Defined.

Lemma demo_directory_layout : directory_layout 64 demo_tbl.
Proof.
  unfold directory_layout, pageNumMap_layout, StreamInfo_layout,
    is_uint32, is_int32, is_uint16.
  cbn [demo_tbl NStreams StreamInfos PageNumMaps].
  refine (conj _ (conj eq_refl (conj _ _))).
  - lia.
  - repeat constructor; cbn [Size Unknown]; lia.
  - repeat constructor; cbn [Size Unknown]; lia.
Defined.

Lemma demo_cap : cap demo_buf = 384.
Proof. vm_compute. reflexivity. Defined.

Lemma demo_page_in_buffer (p : Z) :
  0 <= p < 6 -> page_in_buffer 64 demo_bytes p.
Proof.
  intros Hp. unfold page_in_buffer.
  change (Z.of_nat (length demo_bytes)) with 384. lia.
Defined.

Lemma demo_valid : valid_container demo_file demo_hdr demo_tbl.
Proof.
  unfold valid_container, valid_stream.
  cbn [demo_file demo_hdr demo_tbl FileHdr StreamTbl Data PageSize NStreams
       StreamInfos PageNumMaps demo_buf live].
  refine (conj eq_refl (conj eq_refl (conj _ (conj _ (conj eq_refl _))))).
  - lia.
  - rewrite demo_cap. lia.
  - constructor; [|constructor; [|constructor; [|constructor]]].
    + split; [cbn [Size length]; lia|].
      constructor; [apply demo_page_in_buffer; lia|constructor].
    + split; [cbn [Size length]; lia|].
      constructor; [apply demo_page_in_buffer; lia|].
      constructor; [apply demo_page_in_buffer; lia|constructor].
    + split; [cbn [Size length]; lia|constructor].
Defined.

Lemma demo_header_stages : header_stages demo_rt demo_buf demo_file.
Proof.
  exists demo_hdr, (drop 62 demo_bytes),
    (mkSlice demo_fpm_page (drop 128 demo_bytes)),
    (mkSlice (encode_StreamTable demo_tbl) (repeat x00 30)),
    demo_tbl, [].
  repeat split; vm_compute; reflexivity.
Defined.

(** ** The theorems at the small container *)

(** Stream 1 of the small container: 70 bytes, page 5 then page 4. *)
Lemma readStreamData_valid_witness :
  exists si m s,
    StreamInfos demo_tbl !! Z.to_nat 1 = Some si
    /\ PageNumMaps demo_tbl !! Z.to_nat 1 = Some m
    /\ readStreamData demo_rt demo_file 1 = Ok s
    /\ len s = Size si
    /\ live s
       = take (Z.to_nat (Size si))
              (concat (map (page_bytes (PageSize demo_hdr) (live (Data demo_file))) m))
    /\ (Size si = 0 -> live s = []).
Proof.
  apply (readStreamData_valid demo_rt demo_file demo_hdr demo_tbl 1).
  - exact demo_valid.
  - cbn [demo_tbl NStreams]. lia.
Defined.

Example demo_stream_1 :
  readStreamData demo_rt demo_file 1
  = Ok (mkSlice (ramp 128 64 ++ ramp 64 6) (ramp 70 58)).
Proof. vm_compute. reflexivity. Qed.

Example demo_stream_2 :
  readStreamData demo_rt demo_file 2 = Ok (mkSlice [] []).
Proof. vm_compute. reflexivity. Qed.

(** A stream info of size -1 with no page: the cut to the declared size
    panics, so the requirement of [valid_stream] on the size is needed. *)
Example negative_size_panics :
  readStreamData demo_rt
    (mkFile (PDBStream := list byte) (Some demo_hdr) (Some demo_fpm)
            (Some (mkStreamTable 1 [mkStreamInfo (-1) 0] [[]]))
            [] demo_buf) 0
  = Panic PanicSliceBounds.
Proof. vm_compute. reflexivity. Qed.

Lemma stream_table_two_phases_witness :
  (exists s,
     readStreamTable demo_rt demo_file = Ok s
     /\ live s
        = take (Z.to_nat (Size (StreamTblInfo demo_hdr)))
               (concat (map (page_bytes (PageSize demo_hdr) (live (Data demo_file)))
                            (PageNumMap demo_hdr)))
     /\ len s = Size (StreamTblInfo demo_hdr))
  /\ (forall r tbl rest,
        parseStreamTable demo_rt demo_file r = Ok (tbl, rest)
        <-> directory_layout (PageSize demo_hdr) tbl
            /\ r = encode_StreamTable tbl ++ rest).
Proof.
  apply (stream_table_two_phases demo_rt demo_file demo_hdr).
  - reflexivity.
  - cbn [demo_hdr PageSize]. lia.
  - cbn [demo_hdr StreamTblInfo Size]. lia.
  - cbn [demo_file Data]. rewrite demo_cap. lia.
  - reflexivity.
  - constructor; [|constructor]. apply (demo_page_in_buffer 2). lia.
Defined.

Example demo_stream_table :
  parseStreamTable demo_rt demo_file (encode_StreamTable demo_tbl ++ repeat x00 30)
  = Ok (demo_tbl, repeat x00 30).
Proof. vm_compute. reflexivity. Qed.

Lemma readPage_range_witness :
  (0 <= 3 * PageSize demo_hdr ->
   3 * PageSize demo_hdr <= 3 * PageSize demo_hdr + PageSize demo_hdr ->
   3 * PageSize demo_hdr + PageSize demo_hdr <= len (Data demo_file) ->
   exists s, readPage demo_file 3 = Ok s
             /\ live s = page_bytes (PageSize demo_hdr) (live (Data demo_file)) 3
             /\ len s = PageSize demo_hdr)
  /\ (3 * PageSize demo_hdr < 0
      \/ 3 * PageSize demo_hdr + PageSize demo_hdr < 3 * PageSize demo_hdr
      \/ cap (Data demo_file) < 3 * PageSize demo_hdr + PageSize demo_hdr ->
      readPage demo_file 3 = Panic PanicSliceBounds)
  /\ (forall e, readPage demo_file 3 <> Err e).
Proof.
  apply (readPage_range demo_file demo_hdr 3).
  - reflexivity.
  - unfold is_int. cbn [demo_hdr PageSize]. lia.
  - unfold is_int. cbn [demo_hdr PageSize]. lia.
Defined.

(** The range of page 6 starts at the end of the small container: the call
    panics and returns no error. *)
Lemma readPage_beyond_buffer_panics :
  len (Data demo_file) < 6 * PageSize demo_hdr + PageSize demo_hdr
  /\ readPage demo_file 6 = Panic PanicSliceBounds
  /\ ~ (exists e, readPage demo_file 6 = Err e).
Proof.
  assert (E : readPage demo_file 6 = Panic PanicSliceBounds)
    by (vm_compute; reflexivity).
  refine (conj _ (conj E _)).
  - vm_compute. reflexivity.
  - intros [e He]. rewrite E in He. discriminate He.
Qed.

Lemma readStreamData_unknown_stream_witness :
  readStreamData demo_rt demo_file 3 = Panic PanicIndex
  /\ (forall e, readStreamData demo_rt demo_file 3 <> Err e).
Proof.
  apply (readStreamData_unknown_stream demo_rt demo_file demo_tbl 3).
  - reflexivity.
  - reflexivity.
  - cbn [demo_tbl NStreams]. lia.
Defined.

(** The small container has three streams; asking the loaded file for
    stream 3 panics and returns no error. *)
Lemma readStreamData_beyond_count_panics :
  ParseFile demo_rt failing_decoder demo_buf = Ok demo_file
  /\ StreamTbl demo_file = Some demo_tbl
  /\ NStreams demo_tbl <= 3
  /\ readStreamData demo_rt demo_file 3 = Panic PanicIndex
  /\ ~ (exists e, readStreamData demo_rt demo_file 3 = Err e).
Proof.
  assert (E : readStreamData demo_rt demo_file 3 = Panic PanicIndex)
    by (vm_compute; reflexivity).
  refine (conj demo_loads (conj eq_refl (conj _ (conj E _)))).
  - cbn [demo_tbl NStreams]. lia.
  - intros [e He]. rewrite E in He. discriminate He.
Qed.

Lemma stream_table_truncated_witness :
  (forall r remaining need,
     directory_field (PageSize demo_hdr) r remaining need ->
     Z.of_nat (length remaining) < need ->
     exists e, parseStreamTable demo_rt demo_file r = Err e /\ truncated_data e)
  /\ (Exists (fun p => cap (Data demo_file) < p * PageSize demo_hdr + PageSize demo_hdr)
             (PageNumMap demo_hdr) ->
      readStreamTable demo_rt demo_file = Panic PanicSliceBounds).
Proof.
  apply (stream_table_truncated demo_rt demo_file demo_hdr).
  - reflexivity.
  - exact demo_superblock_layout.
  - cbn [demo_hdr PageSize]. lia.
Defined.

(** Ten bytes of the stream table of the small container: the stream infos
    need 24 bytes and 6 remain. *)
Example demo_directory_field :
  directory_field 64 (take 10 (encode_StreamTable demo_tbl))
    (drop 4 (take 10 (encode_StreamTable demo_tbl))) 24.
Proof.
  exact (field_infos 64 (take 4 (encode_StreamTable demo_tbl))
           (drop 4 (take 10 (encode_StreamTable demo_tbl))) eq_refl).
Qed.

Example demo_stream_table_cut :
  parseStreamTable demo_rt demo_file (take 10 (encode_StreamTable demo_tbl))
  = Err ErrUnexpectedEOF.
Proof. vm_compute. reflexivity. Qed.

Lemma ParseFile_bad_magic_witness :
  (44 <= len bad_magic_buf ->
   ParseFile demo_rt failing_decoder bad_magic_buf = Err ErrInvalidMSFSignature)
  /\ (len bad_magic_buf < 44 ->
      exists e, ParseFile demo_rt failing_decoder bad_magic_buf = Err e
                /\ truncated_data e).
Proof.
  apply (ParseFile_bad_magic demo_rt failing_decoder bad_magic_buf).
  vm_compute. discriminate.
Defined.

Example demo_bad_magic :
  ParseFile demo_rt failing_decoder bad_magic_buf = Err ErrInvalidMSFSignature.
Proof. vm_compute. reflexivity. Qed.

Lemma parseMSFHeader_layout_witness :
  parseMSFHeader demo_rt (take 64 demo_bytes) = Ok (demo_hdr, repeat x00 2)
  <-> superblock_layout demo_hdr
      /\ take 64 demo_bytes = encode_MSFHeader demo_hdr ++ repeat x00 2.
Proof.
  apply (parseMSFHeader_layout demo_rt (take 64 demo_bytes) demo_hdr (repeat x00 2)).
  cbn [demo_hdr PageSize]. lia.
Defined.

Example demo_header :
  parseMSFHeader demo_rt (take 64 demo_bytes) = Ok (demo_hdr, repeat x00 2).
Proof. vm_compute. reflexivity. Qed.

Lemma free_page_map_bits_witness :
  exists hdr fpm,
    FileHdr demo_file = Some hdr
    /\ FreePageMap demo_file = Some fpm
    /\ readPage demo_file (FreePageMapPageNum hdr) = Ok (PageBits fpm)
    /\ forall pageNum b,
         0 <= pageNum ->
         live (PageBits fpm) !! Z.to_nat (pageNum / 8) = Some b ->
         IsFree fpm pageNum = Ok (Z.testbit (byte_to_Z b) (pageNum mod 8)).
Proof.
  apply (free_page_map_bits demo_rt failing_decoder demo_buf demo_file).
  exact demo_loads.
Defined.

(** Pages 0 to 5 of the small container are in use, page 6 is free. *)
Example demo_IsFree :
  map (IsFree demo_fpm) [0; 5; 6; 7; 8] = [Ok false; Ok false; Ok true; Ok true; Ok true].
Proof. vm_compute. reflexivity. Qed.

Lemma free_page_map_bounds_witness :
  exists hdr fpm,
    FileHdr demo_file = Some hdr
    /\ FreePageMap demo_file = Some fpm
    /\ 0 <= FreePageMapPageNum hdr * PageSize hdr
    /\ FreePageMapPageNum hdr * PageSize hdr + PageSize hdr <= cap demo_buf
    /\ len (PageBits fpm) = PageSize hdr
    /\ forall pageNum,
         (0 <= pageNum < 8 * PageSize hdr ->
          exists free, IsFree fpm pageNum = Ok free)
         /\ (8 * PageSize hdr <= pageNum ->
             IsFree fpm pageNum = Panic PanicIndex).
Proof.
  apply (free_page_map_bounds demo_rt failing_decoder demo_buf demo_file).
  exact demo_loads.
Defined.

(** A loaded container of 520 pages of 64 bytes: page 515 is below the page
    count, its bitmap byte 64 is not in the 64-byte bitmap, and [IsFree]
    panics. *)
Lemma IsFree_below_page_count_panics :
  ParseFile demo_rt failing_decoder wide_buf = Ok wide_file
  /\ FileHdr wide_file = Some wide_hdr
  /\ FreePageMap wide_file = Some wide_fpm
  /\ 0 <= 515 < NPages wide_hdr
  /\ len (PageBits wide_fpm) <= 515 / 8
  /\ IsFree wide_fpm 515 = Panic PanicIndex.
Proof.
  refine (conj _ (conj eq_refl (conj eq_refl (conj _ (conj _ _))))).
  - exact (eq_refl (Ok wide_file)
           <: ParseFile demo_rt failing_decoder wide_buf = Ok wide_file).
  - cbn [wide_hdr NPages]. lia.
  - vm_compute. discriminate.
  - vm_compute. reflexivity.
Qed.

Lemma ParseFile_drops_stream_errors_witness :
  ParseFile demo_rt failing_decoder demo_buf = Ok demo_file
  /\ Streams demo_file = []
  /\ (1 < NStreams demo_tbl ->
      exists e, parseStream demo_rt failing_decoder demo_file 1 = Err e)
  /\ (forall i, 0 <= i < NStreams demo_tbl -> i <> 1 ->
                parseStream demo_rt failing_decoder demo_file i = Ok demo_file).
Proof.
  apply (ParseFile_drops_stream_errors demo_rt failing_decoder demo_buf demo_file demo_tbl).
  - exact demo_header_stages.
  - reflexivity.
  - intros i Hi. cbn [demo_tbl NStreams] in Hi.
    assert (Hc : i = 0 \/ i = 1 \/ i = 2) by lia.
    destruct Hc as [->|[->| ->]]; eexists; vm_compute; reflexivity.
  - intros s _. exists ErrUnexpectedEOF. reflexivity.
Defined.

(** With a decoder that accepts its input, the same load keeps the decoded
    stream 1. *)
Example demo_raw_decoder :
  match ParseFile demo_rt raw_decoder demo_buf with
  | Ok file => Streams file = [ramp 128 64 ++ ramp 64 6]
  | _ => False
  end.
Proof. vm_compute. reflexivity. Qed.

(** * Further properties of the code *)

(** ** Page numbers below zero *)

(** X1.  [IsFree] returns no answer for a negative page number: it panics
    with a negative shift amount, or, when the page number is a multiple of
    8, with an index out of range. *)
Theorem IsFree_negative (fpm : FPM) (pageNum : Z) :
  pageNum < 0 ->
  IsFree fpm pageNum
  = Panic (if pageNum mod 8 =? 0 then PanicIndex else PanicNegativeShift).
Proof.
  intros Hneg. unfold IsFree.
  pose proof (Z.rem_bound_pos_neg pageNum 8) as Hr.
  pose proof (Z.quot_rem' pageNum 8) as Hq.
  pose proof (Z.mod_pos_bound pageNum 8) as Hm.
  pose proof (Z.div_mod pageNum 8) as Hd.
  destruct (Z.eqb_spec (pageNum mod 8) 0) as [H0|Hn0].
  - assert (Hrem : Z.rem pageNum 8 = 0) by lia.
    rewrite Hrem. cbn [Z.ltb Z.compare].
    rewrite index_out_of_range by lia. reflexivity.
  - destruct (Z.ltb_spec (Z.rem pageNum 8) 0); [reflexivity|lia].
Qed.

Lemma IsFree_negative_witness :
  IsFree demo_fpm (-3)
  = Panic (if (-3) mod 8 =? 0 then PanicIndex else PanicNegativeShift).
Proof. apply (IsFree_negative demo_fpm (-3)). lia. Defined.

(** ** Streams that cannot be read *)

Section UnreadableStreams.

Context {PDBStream : Type}.
Variable rt : GoRuntime.
Variable parsePDBStream : File PDBStream -> reader -> result PDBStream.
Implicit Types (file : File PDBStream) (hdr : MSFHeader) (tbl : StreamTable).

Lemma readStreamData_loop_Ok_or_panic file hdr m : forall acc,
  FileHdr file = Some hdr ->
  (exists s, readStreamData_loop rt file m acc = Ok s)
  \/ readStreamData_loop rt file m acc = Panic PanicSliceBounds.
Proof.
  induction m as [|p m IH]; intros acc Hh.
  - left. eexists. reflexivity.
  - cbn [readStreamData_loop].
    destruct (readPage_Ok_or_panic file hdr p Hh) as [[pg Hpg]|Hpanic].
    + rewrite Hpg. cbn [bind]. apply IH. exact Hh.
    + right. rewrite Hpanic. reflexivity.
Qed.

Lemma readStreamData_loop_panics file hdr m : forall acc,
  FileHdr file = Some hdr ->
  is_int32 (PageSize hdr) ->
  Forall is_uint16 m ->
  Exists (fun p => cap (Data file) < p * PageSize hdr + PageSize hdr) m ->
  readStreamData_loop rt file m acc = Panic PanicSliceBounds.
Proof.
  induction m as [|p m IH]; intros acc Hh Hps HU HE.
  - inversion HE.
  - inversion HU as [|? ? Hp HU']; subst. cbn [readStreamData_loop].
    destruct (readPage_Ok_or_panic file hdr p Hh) as [[pg Hpg]|Hpanic].
    + rewrite Hpg. cbn [bind].
      inversion HE as [? ? Hbad|? ? Htail]; subst.
      * rewrite (readPage_beyond_cap file hdr p Hh Hps Hp Hbad) in Hpg. discriminate.
      * apply IH; assumption.
    + rewrite Hpanic. reflexivity.
Qed.

(** X2.  A stream whose declared size is negative (such as the size -1 of a
    deleted stream) cannot be read: whatever its pages are, [readStreamData]
    panics with a slice-bounds run-time panic. *)
Theorem readStreamData_negative_size file hdr tbl (i : nat) si m :
  FileHdr file = Some hdr ->
  StreamTbl file = Some tbl ->
  StreamInfos tbl !! i = Some si ->
  PageNumMaps tbl !! i = Some m ->
  Size si < 0 ->
  readStreamData rt file (Z.of_nat i) = Panic PanicSliceBounds.
Proof.
  intros Hh Ht Hsi Hm Hneg. unfold readStreamData. rewrite Ht.
  rewrite (index_lookup _ _ _ Hsi). cbn [bind].
  rewrite (index_lookup _ _ _ Hm). cbn [bind].
  destruct (readStreamData_loop_Ok_or_panic file hdr m nil_slice Hh) as [[s Hs]|Hp].
  - rewrite Hs. cbn [bind]. apply reslice_out_of_cap. lia.
  - rewrite Hp. reflexivity.
Qed.

(** X3.  A stream one of whose page numbers addresses a page that reaches
    beyond the capacity of the buffer cannot be read: [readStreamData]
    panics with a slice-bounds run-time panic and returns no error. *)
Theorem readStreamData_page_beyond_buffer file hdr tbl (i : nat) si m :
  FileHdr file = Some hdr ->
  StreamTbl file = Some tbl ->
  StreamInfos tbl !! i = Some si ->
  PageNumMaps tbl !! i = Some m ->
  is_int32 (PageSize hdr) ->
  Forall is_uint16 m ->
  Exists (fun p => cap (Data file) < p * PageSize hdr + PageSize hdr) m ->
  readStreamData rt file (Z.of_nat i) = Panic PanicSliceBounds.
Proof.
  intros Hh Ht Hsi Hm Hps HU HE. unfold readStreamData. rewrite Ht.
  rewrite (index_lookup _ _ _ Hsi). cbn [bind].
  rewrite (index_lookup _ _ _ Hm). cbn [bind].
  rewrite (readStreamData_loop_panics file hdr m nil_slice Hh Hps HU HE).
  reflexivity.
Qed.

(** X4.  With a positive page size, a header that declares a negative size
    for the stream table makes [readStreamTable] panic with a slice-bounds
    run-time panic: no page is read and the cut to the declared size
    fails. *)
Theorem readStreamTable_negative_size file hdr :
  FileHdr file = Some hdr ->
  0 < PageSize hdr ->
  Size (StreamTblInfo hdr) < 0 ->
  readStreamTable rt file = Panic PanicSliceBounds.
Proof.
  intros Hh Hps Hneg. unfold readStreamTable. rewrite Hh.
  rewrite npages_of_nonzero by lia.
  assert (Hc : ceil_div (Size (StreamTblInfo hdr)) (PageSize hdr) <= 0).
  { pose proof (ceil_div_spec (Size (StreamTblInfo hdr)) (PageSize hdr) Hps). nia. }
  replace (Z.to_nat (ceil_div (Size (StreamTblInfo hdr)) (PageSize hdr))) with O by lia.
  cbn [readStreamTable_loop bind]. apply reslice_out_of_cap. lia.
Qed.

(** X5.  When the header is parsed but its page size is negative, or its
    free-page-map page reaches beyond the capacity of the buffer,
    [ParseFile] returns neither a file nor an error: it panics with a
    slice-bounds run-time panic while it reads the free page map. *)
Theorem ParseFile_free_page_map_panics buf hdr rest :
  parseMSFHeader rt (NewReader buf) = Ok (hdr, rest) ->
  PageSize hdr < 0
  \/ cap buf < FreePageMapPageNum hdr * PageSize hdr + PageSize hdr ->
  ParseFile rt parsePDBStream buf = Panic PanicSliceBounds.
Proof.
  intros Hparse Hbad.
  destruct (parseMSFHeader_ranges rt _ _ _ Hparse) as (Rps & Rfpm & _).
  unfold is_int32, is_uint16 in *.
  unfold ParseFile. cbn [Data FileHdr FreePageMap StreamTbl Streams].
  rewrite Hparse. cbn [bind].
  rewrite (readPage_no_wrap
             (mkFile (PDBStream := PDBStream) (Some hdr) None None [] buf)
             hdr (FreePageMapPageNum hdr) eq_refl)
    by (unfold is_int; nia).
  cbn [Data]. rewrite reslice_out_of_cap; [reflexivity|].
  destruct Hbad as [Hneg|Hcap]; [right; left; lia|right; right; exact Hcap].
Qed.

End UnreadableStreams.

(** ** What a loaded file guarantees *)

Lemma index_Ok {A} (l : list A) (i : Z) (a : A) :
  index l i = Ok a -> 0 <= i < Z.of_nat (length l) /\ l !! Z.to_nat i = Some a.
Proof.
  unfold index.
  destruct (Z.leb_spec 0 i); [|discriminate].
  destruct (Z.ltb_spec i (Z.of_nat (length l))); [|discriminate].
  cbn [andb]. destruct (l !! Z.to_nat i) as [a'|]; [|discriminate].
  intros [= <-]. split; [lia|reflexivity].
Qed.

Lemma parseMSFHeader_magic (rt : GoRuntime) (r : reader) hdr rest :
  parseMSFHeader rt r = Ok (hdr, rest) -> Magic hdr = msfSignature.
Proof.
  intros H. unfold parseMSFHeader in H.
  read_step H magic r1 E1.
  destruct (bytes_eqb magic msfSignature) eqn:Em; cbn [negb] in H; [|discriminate H].
  read_step H b1 r2 E2. read_step H b2 r3 E3. read_step H b3 r4 E4.
  read_step H b4 r5 E5.
  destruct (make_len 2 _) as [n| |] in H; cbn [bind] in H; try discriminate H.
  read_step H b5 r6 E6.
  injection H as <- <-. cbn [Magic]. apply bytes_eqb_eq. exact Em.
Qed.

Section LoadedFile.

Context {PDBStream : Type}.
Variable rt : GoRuntime.
Variable parsePDBStream : File PDBStream -> reader -> result PDBStream.
Implicit Types (file : File PDBStream) (hdr : MSFHeader) (tbl : StreamTable).

Lemma parsePageNumMaps_length file infos : forall r maps rest,
  parsePageNumMaps rt file infos r = Ok (maps, rest) ->
  length maps = length infos.
Proof.
  induction infos as [|si infos IH]; intros r maps rest H.
  - cbn [parsePageNumMaps] in H. injection H as <- <-. reflexivity.
  - cbn [parsePageNumMaps] in H.
    destruct (FileHdr file) as [hdr|]; [|discriminate H].
    destruct (make_len 2 _) as [n| |] in H; cbn [bind] in H; try discriminate H.
    read_step H b r1 E1.
    destruct (parsePageNumMaps rt file infos r1) as [[maps' r2]| |] eqn:E2;
      cbn [bind] in H; try discriminate H.
    injection H as <- <-. cbn [length]. rewrite (IH _ _ _ E2). reflexivity.
Qed.

Lemma parseStreamTable_maps_length file (r : reader) tbl rest :
  parseStreamTable rt file r = Ok (tbl, rest) ->
  length (PageNumMaps tbl) = length (StreamInfos tbl).
Proof.
  intros H. unfold parseStreamTable in H.
  read_step H b0 r1 E0. read_step H b1 r2 E1.
  destruct (parsePageNumMaps rt file _ r2) as [[maps r3]| |] eqn:E2;
    cbn [bind] in H; try discriminate H.
  injection H as <- <-. cbn [PageNumMaps StreamInfos].
  apply (parsePageNumMaps_length _ _ _ _ _ E2).
Qed.

Lemma readStreamData_loop_ext file file' m : forall acc,
  FileHdr file = FileHdr file' -> Data file = Data file' ->
  readStreamData_loop rt file m acc = readStreamData_loop rt file' m acc.
Proof.
  induction m as [|p m IH]; intros acc Hh Hd; [reflexivity|].
  cbn [readStreamData_loop]. rewrite (readPage_ext file file' p Hh Hd).
  destruct (readPage file' p); cbn [bind]; try reflexivity.
  apply IH; assumption.
Qed.

Lemma readStreamData_ext file file' streamNum :
  FileHdr file = FileHdr file' -> StreamTbl file = StreamTbl file' ->
  Data file = Data file' ->
  readStreamData rt file streamNum = readStreamData rt file' streamNum.
Proof.
  intros Hh Ht Hd. unfold readStreamData. rewrite Ht.
  destruct (StreamTbl file'); [|reflexivity].
  destruct (index (StreamInfos s) streamNum); cbn [bind]; try reflexivity.
  destruct (index (PageNumMaps s) streamNum); cbn [bind]; try reflexivity.
  rewrite (readStreamData_loop_ext file file' _ _ Hh Hd). reflexivity.
Qed.

Lemma readStreamData_loop_not_Err file m : forall acc e,
  readStreamData_loop rt file m acc <> Err e.
Proof.
  induction m as [|p m IH]; intros acc e; [discriminate|].
  cbn [readStreamData_loop].
  destruct (readPage file p) as [pg|e'|] eqn:E; cbn [bind].
  - apply IH.
  - exfalso. exact (readPage_not_Err file p e' E).
  - discriminate.
Qed.

Lemma readStreamData_not_Err file streamNum e :
  readStreamData rt file streamNum <> Err e.
Proof.
  unfold readStreamData. destruct (StreamTbl file) as [tbl|]; [|discriminate].
  destruct (index (StreamInfos tbl) streamNum) as [si|e'|] eqn:E1; cbn [bind].
  - destruct (index (PageNumMaps tbl) streamNum) as [m|e'|] eqn:E2; cbn [bind].
    + destruct (readStreamData_loop rt file m nil_slice) as [s|e'|] eqn:E3; cbn [bind].
      * apply reslice_not_Err.
      * exfalso. exact (readStreamData_loop_not_Err file m _ e' E3).
      * discriminate.
    + exfalso. exact (index_not_Err _ _ e' E2).
    + discriminate.
  - exfalso. exact (index_not_Err _ _ e' E1).
  - discriminate.
Qed.

Lemma readStreamData_Ok file streamNum s :
  readStreamData rt file streamNum = Ok s ->
  exists tbl si,
    StreamTbl file = Some tbl
    /\ StreamInfos tbl !! Z.to_nat streamNum = Some si
    /\ len s = Size si.
Proof.
  unfold readStreamData. destruct (StreamTbl file) as [tbl|]; [|discriminate].
  destruct (index (StreamInfos tbl) streamNum) as [si| |] eqn:E1;
    cbn [bind]; try discriminate.
  destruct (index (PageNumMaps tbl) streamNum) as [m| |]; cbn [bind]; try discriminate.
  destruct (readStreamData_loop rt file m nil_slice) as [acc| |];
    cbn [bind]; try discriminate.
  intros H. apply reslice_Ok in H. apply index_Ok in E1.
  exists tbl, si. repeat split; [apply E1|lia].
Qed.

Lemma parseStream_reads file streamNum :
  (exists s, readStreamData rt file streamNum = Ok s)
  \/ exists p, parseStream rt parsePDBStream file streamNum = Panic p.
Proof.
  unfold parseStream.
  destruct (readStreamData rt file streamNum) as [s|e|p] eqn:E; cbn [bind].
  - left. eexists. reflexivity.
  - exfalso. exact (readStreamData_not_Err file streamNum e E).
  - right. eexists. reflexivity.
Qed.

Lemma ParseFile_loop_reads todo : forall file streamNum file',
  ParseFile_loop rt parsePDBStream file todo streamNum = Ok file' ->
  forall i, streamNum <= i < streamNum + Z.of_nat todo ->
            exists s, readStreamData rt file i = Ok s.
Proof.
  induction todo as [|todo IH]; intros file streamNum file' H i Hi; [lia|].
  cbn [ParseFile_loop] in H.
  assert (Hnext : exists file1,
             FileHdr file1 = FileHdr file /\ StreamTbl file1 = StreamTbl file
             /\ Data file1 = Data file
             /\ ParseFile_loop rt parsePDBStream file1 todo (streamNum + 1) = Ok file').
  { destruct (parseStream rt parsePDBStream file streamNum) as [f1|e|p] eqn:E.
    - destruct (parseStream_Ok rt parsePDBStream _ _ _ E) as (H1 & _ & H3 & H4).
      exists f1. repeat split; assumption.
    - exists file. repeat split. exact H.
    - discriminate H. }
  destruct Hnext as (file1 & H1 & H3 & H4 & Hloop).
  destruct (Z.eq_dec i streamNum) as [->|Hne].
  - destruct (parseStream_reads file streamNum) as [Hs|[p Hp]]; [exact Hs|].
    rewrite Hp in H. discriminate H.
  - destruct (IH file1 (streamNum + 1) file' Hloop i) as [s Hs]; [lia|].
    exists s. rewrite <- Hs. symmetry. apply readStreamData_ext; assumption.
Qed.

(** X6.  In a file that [ParseFile] loaded, the buffer is the input, the
    magic is the MSF signature, the page size is not negative, and the
    stream table has as many stream infos and page number maps as its
    stream count says; when the page size is not zero, the header and the
    stream table have the layout of the format, with
    [ceil (size / pageSize)] page numbers for the stream table and for every
    stream. *)
Theorem ParseFile_invariants buf file :
  ParseFile rt parsePDBStream buf = Ok file ->
  exists hdr tbl,
    FileHdr file = Some hdr
    /\ StreamTbl file = Some tbl
    /\ Data file = buf
    /\ Magic hdr = msfSignature
    /\ 0 <= PageSize hdr
    /\ is_uint32 (NStreams tbl)
    /\ Z.of_nat (length (StreamInfos tbl)) = NStreams tbl
    /\ Z.of_nat (length (PageNumMaps tbl)) = NStreams tbl
    /\ (PageSize hdr <> 0 ->
        superblock_layout hdr /\ directory_layout (PageSize hdr) tbl).
Proof.
  intros H. destruct (ParseFile_Ok rt parsePDBStream buf file H)
    as (f0 & tbl & Hst & Ht & Hloop).
  destruct (ParseFile_loop_Ok rt parsePDBStream _ _ _ _ Hloop) as (G1 & G2 & G3 & G4).
  destruct Hst as (hdr & rest & fpmData & tblData & tbl' & rest' & H1 & H2 & H3 & H4 & ->).
  cbn [FileHdr FreePageMap StreamTbl Data] in *. injection Ht as ->.
  destruct (parseMSFHeader_ranges rt _ _ _ H1) as (Rps & Rfpm & _).
  destruct (parseStreamTable_counts rt _ _ _ _ H4) as (HN & HL).
  pose proof (parseStreamTable_maps_length _ _ _ _ H4) as HM.
  assert (Hps0 : 0 <= PageSize hdr).
  { unfold is_int32, is_uint16 in *.
    rewrite (readPage_no_wrap
               (mkFile (PDBStream := PDBStream) (Some hdr) None None [] buf)
               hdr (FreePageMapPageNum hdr) eq_refl) in H2
      by (unfold is_int; nia).
    apply reslice_Ok in H2. lia. }
  exists hdr, tbl.
  refine (conj G1 (conj G3 (conj G4 (conj _ (conj Hps0 (conj HN (conj HL (conj _ _)))))))).
  - apply (parseMSFHeader_magic rt _ _ _ H1).
  - lia.
  - intros Hnz. split.
    + apply (parseMSFHeader_sound rt _ _ _ Hnz H1).
    + refine (proj1 (parseStreamTable_sound rt _ hdr _ _ _ _ Hnz H4)). reflexivity.
Qed.

(** X7.  In a file that [ParseFile] loaded, every stream number below the
    stream count can be read again: [readStreamData] returns a slice of
    exactly the declared size, and no declared size is negative. *)
Theorem ParseFile_streams_readable buf file :
  ParseFile rt parsePDBStream buf = Ok file ->
  exists tbl,
    StreamTbl file = Some tbl
    /\ forall i, 0 <= i < NStreams tbl ->
         exists si s,
           StreamInfos tbl !! Z.to_nat i = Some si
           /\ readStreamData rt file i = Ok s
           /\ len s = Size si
           /\ 0 <= Size si.
Proof.
  intros H. destruct (ParseFile_Ok rt parsePDBStream buf file H)
    as (f0 & tbl & Hst & Ht & Hloop).
  destruct (ParseFile_loop_Ok rt parsePDBStream _ _ _ _ Hloop) as (G1 & G2 & G3 & G4).
  assert (HN : 0 <= NStreams tbl).
  { destruct Hst as (hdr & rest & fpmData & tblData & tbl' & rest' & _ & _ & _ & H4 & ->).
    cbn [StreamTbl] in Ht. injection Ht as ->.
    destruct (parseStreamTable_counts rt _ _ _ _ H4) as (HN & _).
    unfold is_uint32 in HN. lia. }
  exists tbl. split; [congruence|]. intros i Hi.
  destruct (ParseFile_loop_reads _ _ _ _ Hloop i) as [s Hs]; [lia|].
  assert (Hs' : readStreamData rt file i = Ok s).
  { rewrite <- Hs. apply readStreamData_ext; assumption. }
  destruct (readStreamData_Ok file i s Hs') as (tbl' & si & Ht' & Hsi & Hlen).
  assert (tbl' = tbl) by congruence. subst tbl'.
  exists si, s. repeat split; try assumption.
  rewrite <- Hlen. unfold len. lia.
Qed.

Lemma parseStream_other file streamNum file' :
  parseStream rt parsePDBStream file streamNum = Ok file' ->
  streamNum mod 2 ^ 32 <> 1 -> file' = file.
Proof.
  unfold parseStream, StreamIDPDBStream.
  destruct (readStreamData rt file streamNum); cbn [bind]; try discriminate.
  destruct (Z.eqb_spec (streamNum mod 2 ^ 32) 1); [contradiction|].
  intros [= <-] _. reflexivity.
Qed.

Lemma parseStream_pdb file file' :
  parseStream rt parsePDBStream file 1 = Ok file' ->
  exists s p,
    readStreamData rt file 1 = Ok s
    /\ parsePDBStream file (NewReader s) = Ok p
    /\ file' = mkFile (FileHdr file) (FreePageMap file) (StreamTbl file)
                      (Streams file ++ [p]) (Data file).
Proof.
  unfold parseStream.
  destruct (readStreamData rt file 1) as [s| |]; cbn [bind]; try discriminate.
  change (1 mod 2 ^ 32 =? StreamIDPDBStream) with true. cbn iota.
  destruct (parsePDBStream file (NewReader s)) as [p| |] eqn:E;
    cbn [bind]; try discriminate.
  intros [= <-]. exists s, p. repeat split. exact E.
Qed.

Lemma ParseFile_loop_undecoded todo : forall file streamNum file',
  1 < streamNum -> streamNum + Z.of_nat todo <= 2 ^ 32 ->
  ParseFile_loop rt parsePDBStream file todo streamNum = Ok file' ->
  file' = file.
Proof.
  induction todo as [|todo IH]; intros file streamNum file' H1 Hmax H.
  - cbn [ParseFile_loop] in H. injection H as <-. reflexivity.
  - cbn [ParseFile_loop] in H.
    destruct (parseStream rt parsePDBStream file streamNum) as [f1|e|p] eqn:E.
    + apply parseStream_other in E; [|rewrite Z.mod_small; lia]. subst f1.
      apply (IH file (streamNum + 1)); [lia|lia|exact H].
    + apply (IH file (streamNum + 1)); [lia|lia|exact H].
    + discriminate H.
Qed.

(** X8.  The file [ParseFile] returns is the file its header stages built,
    with at most one decoded stream: [Streams] is empty, or it holds the one
    value the PDB stream decoder returned for the bytes of stream 1.  No
    stream number other than 1 adds to [Streams]. *)
Theorem ParseFile_Streams buf file :
  ParseFile rt parsePDBStream buf = Ok file ->
  exists file0 tbl,
    header_stages rt buf file0
    /\ StreamTbl file0 = Some tbl
    /\ (file = file0
        \/ exists s p,
             1 < NStreams tbl
             /\ readStreamData rt file0 1 = Ok s
             /\ parsePDBStream file0 (NewReader s) = Ok p
             /\ file = mkFile (FileHdr file0) (FreePageMap file0)
                              (StreamTbl file0) [p] (Data file0)).
Proof.
  intros H. destruct (ParseFile_Ok rt parsePDBStream buf file H)
    as (f0 & tbl & Hst & Ht & Hloop).
  exists f0, tbl. refine (conj Hst (conj Ht _)).
  assert (HS : Streams f0 = [] /\ is_uint32 (NStreams tbl)).
  { destruct Hst as (hdr & rest & fpmData & tblData & tbl' & rest' & _ & _ & _ & H4 & ->).
    cbn [StreamTbl] in Ht. injection Ht as ->. split; [reflexivity|].
    apply (parseStreamTable_counts rt _ _ _ _ H4). }
  destruct HS as [HS HN]. unfold is_uint32 in HN.
  destruct (Z.to_nat (NStreams tbl)) as [|[|todo]] eqn:En.
  - cbn [ParseFile_loop] in Hloop. injection Hloop as <-. left. reflexivity.
  - cbn [ParseFile_loop] in Hloop. left.
    destruct (parseStream rt parsePDBStream f0 0) as [f1|e|p] eqn:E0.
    + apply parseStream_other in E0; [|rewrite Z.mod_small; lia]. congruence.
    + congruence.
    + discriminate Hloop.
  - cbn [ParseFile_loop] in Hloop.
    assert (Hloop1 :
      match parseStream rt parsePDBStream f0 1 with
      | Ok file' => ParseFile_loop rt parsePDBStream file' todo 2
      | Err _ => ParseFile_loop rt parsePDBStream f0 todo 2
      | Panic p => Panic p
      end = Ok file).
    { destruct (parseStream rt parsePDBStream f0 0) as [f1|e|p] eqn:E0.
      - apply parseStream_other in E0; [|rewrite Z.mod_small; lia]. subst f1.
        exact Hloop.
      - exact Hloop.
      - discriminate Hloop. }
    clear Hloop.
    destruct (parseStream rt parsePDBStream f0 1) as [f1|e|p] eqn:E1.
    + apply (ParseFile_loop_undecoded todo f1 2) in Hloop1; [|lia|lia]. subst file.
      destruct (parseStream_pdb f0 f1 E1) as (s & p & Hs & Hp & ->).
      right. exists s, p. rewrite HS. cbn [app].
      repeat split; try assumption. lia.
    + apply (ParseFile_loop_undecoded todo f0 2) in Hloop1; [|lia|lia].
      left. exact Hloop1.
    + discriminate Hloop1.
Qed.

End LoadedFile.

(** ** Where the bytes of a stream are in the file *)

Lemma page_bytes_lookup (pageSize : Z) (data : list byte) (pageNum k : Z) :
  0 <= pageNum -> 0 <= k < pageSize ->
  page_bytes pageSize data pageNum !! Z.to_nat k
  = data !! Z.to_nat (pageNum * pageSize + k).
Proof.
  intros Hp Hk. unfold page_bytes.
  rewrite lookup_take_lt by lia. rewrite lookup_drop.
  f_equal. nia.
Qed.

Lemma concat_pages_lookup (pageSize : Z) (data : list byte) (m : list Z) :
  0 < pageSize ->
  Forall (page_in_buffer pageSize data) m ->
  forall j, 0 <= j < Z.of_nat (length m) * pageSize ->
    exists p,
      m !! Z.to_nat (j / pageSize) = Some p
      /\ concat (map (page_bytes pageSize data) m) !! Z.to_nat j
         = data !! Z.to_nat (p * pageSize + j mod pageSize).
Proof.
  intros Hps. induction 1 as [|p0 m Hp0 Hm IH]; intros j Hj.
  - cbn [length] in Hj. lia.
  - cbn [map concat].
    pose proof (length_page_bytes pageSize data p0 (Z.lt_le_incl _ _ Hps) Hp0) as Hlen.
    destruct (Z.lt_ge_cases j pageSize) as [Hlt|Hge].
    + exists p0. rewrite Z.div_small, Z.mod_small by lia. split; [reflexivity|].
      rewrite lookup_app_l by lia.
      apply page_bytes_lookup; [apply Hp0|lia].
    + cbn [length] in Hj.
      destruct (IH (j - pageSize)) as (p & Hp & Hl); [nia|].
      pose proof (Z.div_mod (j - pageSize) pageSize) as Hd.
      pose proof (Z.mod_pos_bound (j - pageSize) pageSize Hps) as Hr.
      assert (Hq0 : 0 <= (j - pageSize) / pageSize) by (apply Z.div_pos; lia).
      assert (Hq : j / pageSize = (j - pageSize) / pageSize + 1).
      { symmetry. apply Z.div_unique with (r := (j - pageSize) mod pageSize); lia. }
      assert (Hmod : j mod pageSize = (j - pageSize) mod pageSize).
      { symmetry. apply Z.mod_unique with (q := (j - pageSize) / pageSize + 1); lia. }
      exists p. rewrite Hq, Hmod. split.
      * rewrite Z2Nat.inj_add, Nat.add_comm by lia. exact Hp.
      * rewrite lookup_app_r by lia. rewrite <- Hl. f_equal. lia.
Qed.

Lemma concat_consecutive_pages (pageSize : Z) (data : list byte) (n : nat) :
  0 <= pageSize ->
  forall first, 0 <= first ->
    concat (map (page_bytes pageSize data) (seqZ first (Z.of_nat n)))
    = take (n * Z.to_nat pageSize) (drop (Z.to_nat (first * pageSize)) data).
Proof.
  intros Hps. induction n as [|n IH]; intros first Hf.
  - reflexivity.
  - rewrite seqZ_cons by lia. cbn [map concat].
    replace (Z.pred (Z.of_nat (S n))) with (Z.of_nat n) by lia.
    rewrite IH by lia. unfold page_bytes.
    replace (Z.to_nat (Z.succ first * pageSize))
      with (Z.to_nat (first * pageSize) + Z.to_nat pageSize)%nat by nia.
    rewrite <- drop_drop. rewrite take_take_drop. f_equal.
Qed.

Section StreamBytes.

Context {PDBStream : Type}.
Variable rt : GoRuntime.
Implicit Types (file : File PDBStream) (hdr : MSFHeader) (tbl : StreamTable).

Lemma readStreamData_concat file hdr tbl (i : nat) si m :
  valid_container file hdr tbl ->
  StreamInfos tbl !! i = Some si ->
  PageNumMaps tbl !! i = Some m ->
  valid_stream (PageSize hdr) (live (Data file)) si m
  /\ exists s,
       readStreamData rt file (Z.of_nat i) = Ok s
       /\ live s
          = take (Z.to_nat (Size si))
                 (concat (map (page_bytes (PageSize hdr) (live (Data file))) m)).
Proof.
  intros (Hh & Ht & Hps & Hcap & Hn & HF) Hsi Hm.
  pose proof (Forall2_lookup_lr _ _ _ _ _ _ HF Hsi Hm) as Hv.
  split; [exact Hv|]. destruct Hv as (Hsz & Hpages).
  destruct (readStreamData_loop_pages rt file hdr m nil_slice Hh)
    as (acc & Hacc & Hlive); [lia|exact Hcap|exact Hpages|].
  cbn [nil_slice live app] in Hlive.
  destruct (reslice_within_len acc 0 (Size si)) as (s & Hs & Hl & _); [lia|lia| |].
  { unfold len. rewrite Hlive, length_concat_pages by (lia || exact Hpages). lia. }
  exists s. unfold readStreamData. rewrite Ht.
  rewrite (index_lookup _ _ _ Hsi). cbn [bind].
  rewrite (index_lookup _ _ _ Hm). cbn [bind]. rewrite Hacc. cbn [bind].
  split; [exact Hs|].
  rewrite Hl, Z.sub_0_r. cbn [Z.to_nat drop]. rewrite Hlive. reflexivity.
Qed.

(** X9.  The address translation of the format: in a valid container, byte
    [j] of a stream is the byte of the file at offset
    [p * pageSize + j mod pageSize], where [p] is entry [j / pageSize] of
    the stream's page number map. *)
Theorem readStreamData_byte file hdr tbl (i : nat) si m :
  valid_container file hdr tbl ->
  StreamInfos tbl !! i = Some si ->
  PageNumMaps tbl !! i = Some m ->
  exists s,
    readStreamData rt file (Z.of_nat i) = Ok s
    /\ forall j, 0 <= j < Size si ->
         exists p,
           m !! Z.to_nat (j / PageSize hdr) = Some p
           /\ live s !! Z.to_nat j
              = live (Data file) !! Z.to_nat (p * PageSize hdr + j mod PageSize hdr).
Proof.
  intros Hv Hsi Hm.
  destruct (readStreamData_concat file hdr tbl i si m Hv Hsi Hm)
    as ((Hsz & Hpages) & s & Hs & Hlive).
  destruct Hv as (_ & _ & Hps & _).
  exists s. split; [exact Hs|]. intros j Hj.
  destruct (concat_pages_lookup (PageSize hdr) (live (Data file)) m Hps Hpages j)
    as (p & Hp & Hl); [lia|].
  exists p. split; [exact Hp|].
  rewrite Hlive, lookup_take_lt by lia. exact Hl.
Qed.

(** X10.  In a valid container, a stream stored on consecutive pages,
    [first], [first + 1], ..., is one contiguous piece of the file: its
    bytes are the declared number of bytes of the buffer from offset
    [first * pageSize] on. *)
Theorem readStreamData_consecutive_pages file hdr tbl (i : nat) si first (n : nat) :
  valid_container file hdr tbl ->
  StreamInfos tbl !! i = Some si ->
  PageNumMaps tbl !! i = Some (seqZ first (Z.of_nat n)) ->
  0 <= first ->
  exists s,
    readStreamData rt file (Z.of_nat i) = Ok s
    /\ live s
       = take (Z.to_nat (Size si))
              (drop (Z.to_nat (first * PageSize hdr)) (live (Data file))).
Proof.
  intros Hv Hsi Hm Hf.
  destruct (readStreamData_concat file hdr tbl i si _ Hv Hsi Hm)
    as ((Hsz & Hpages) & s & Hs & Hlive).
  destruct Hv as (_ & _ & Hps & _).
  exists s. split; [exact Hs|].
  rewrite Hlive, concat_consecutive_pages by lia.
  rewrite length_seqZ in Hsz.
  rewrite take_take. f_equal. nia.
Qed.

End StreamBytes.

(** ** Headers that are cut short or declare a negative page count *)

Lemma read_full_prefix (n : Z) (a : list byte) (r' : reader) (k : nat) :
  Z.of_nat (length a) = n -> (length a <= k)%nat ->
  read_full n (take k (a ++ r')) = Ok (a, take (k - length a) r').
Proof.
  intros Hn Hk. rewrite take_app, take_ge by lia.
  apply read_full_app_n. exact Hn.
Qed.

Lemma read_full_cut (n : Z) (a : list byte) (r' : reader) (k : nat) :
  Z.of_nat (length a) = n -> (k < length a)%nat ->
  exists e, read_full n (take k (a ++ r')) = Err e /\ truncated_data e.
Proof.
  intros Hn Hk. apply read_full_truncated. rewrite length_take. lia.
Qed.

Lemma parseMSFHeader_truncated (rt : GoRuntime) (hdr : MSFHeader)
    (rest : reader) (k : nat) :
  PageSize hdr <> 0 ->
  superblock_layout hdr ->
  (k < length (encode_MSFHeader hdr))%nat ->
  exists e,
    parseMSFHeader rt (take k (encode_MSFHeader hdr ++ rest)) = Err e
    /\ truncated_data e.
Proof.
  intros Hps (Hm & Hp & Hf & Hn & Hi & HF & HL) Hk.
  destruct hdr as [magic ps fpm np info maps].
  cbn [Magic PageSize FreePageMapPageNum NPages StreamTblInfo PageNumMap] in *.
  subst magic. unfold encode_MSFHeader in *.
  cbn [Magic PageSize FreePageMapPageNum NPages StreamTblInfo PageNumMap] in *.
  pose proof length_msfSignature as L0.
  pose proof (length_encode_int32 ps) as L1.
  pose proof (length_encode_uint16 fpm) as L2.
  pose proof (length_encode_uint16 np) as L3.
  pose proof (length_encode_StreamInfo info) as L4.
  pose proof (length_encode_uint16s maps) as L5.
  rewrite !length_app in Hk.
  rewrite <- !app_assoc. unfold parseMSFHeader.
  destruct (Nat.lt_ge_cases k (length msfSignature)) as [Hlt|Hge].
  { destruct (read_full_cut 44 msfSignature
                (encode_int32 ps ++ encode_uint16 fpm ++ encode_uint16 np
                   ++ encode_StreamInfo info ++ encode_uint16s maps ++ rest) k L0 Hlt)
      as (e & He & Ht).
    exists e. rewrite He. split; [reflexivity|exact Ht]. }
  rewrite (read_full_prefix 44) by (exact L0 || exact Hge). cbn [bind].
  rewrite bytes_eqb_refl. cbn [negb].
  set (k1 := (k - length msfSignature)%nat) in *.
  destruct (Nat.lt_ge_cases k1 (length (encode_int32 ps))) as [Hlt|Hge1].
  { destruct (read_full_cut 4 (encode_int32 ps)
                (encode_uint16 fpm ++ encode_uint16 np
                   ++ encode_StreamInfo info ++ encode_uint16s maps ++ rest) k1)
      as (e & He & Ht); [lia|exact Hlt|].
    exists e. rewrite He. split; [reflexivity|exact Ht]. }
  rewrite (read_full_prefix 4) by (lia || exact Hge1). cbn [bind].
  set (k2 := (k1 - length (encode_int32 ps))%nat) in *.
  destruct (Nat.lt_ge_cases k2 (length (encode_uint16 fpm))) as [Hlt|Hge2].
  { destruct (read_full_cut 2 (encode_uint16 fpm)
                (encode_uint16 np ++ encode_StreamInfo info
                   ++ encode_uint16s maps ++ rest) k2)
      as (e & He & Ht); [lia|exact Hlt|].
    exists e. rewrite He. split; [reflexivity|exact Ht]. }
  rewrite (read_full_prefix 2) by (lia || exact Hge2). cbn [bind].
  set (k3 := (k2 - length (encode_uint16 fpm))%nat) in *.
  destruct (Nat.lt_ge_cases k3 (length (encode_uint16 np))) as [Hlt|Hge3].
  { destruct (read_full_cut 2 (encode_uint16 np)
                (encode_StreamInfo info ++ encode_uint16s maps ++ rest) k3)
      as (e & He & Ht); [lia|exact Hlt|].
    exists e. rewrite He. split; [reflexivity|exact Ht]. }
  rewrite (read_full_prefix 2) by (lia || exact Hge3). cbn [bind].
  set (k4 := (k3 - length (encode_uint16 np))%nat) in *.
  destruct (Nat.lt_ge_cases k4 (length (encode_StreamInfo info))) as [Hlt|Hge4].
  { destruct (read_full_cut 8 (encode_StreamInfo info)
                (encode_uint16s maps ++ rest) k4)
      as (e & He & Ht); [lia|exact Hlt|].
    exists e. rewrite He. split; [reflexivity|exact Ht]. }
  rewrite (read_full_prefix 8) by (lia || exact Hge4). cbn [bind].
  rewrite decode_encode_int32, decode_encode_StreamInfo by assumption.
  rewrite npages_of_nonzero by exact Hps.
  pose proof (ceil_div_bound (Size info) ps (proj1 Hi) Hps) as Hb.
  rewrite make_len_small by lia. cbn [bind].
  set (k5 := (k4 - length (encode_StreamInfo info))%nat) in *.
  destruct (read_full_cut (2 * ceil_div (Size info) ps) (encode_uint16s maps) rest k5)
    as (e & He & Ht); [lia|lia|].
  exists e. rewrite He. split; [reflexivity|exact Ht].
Qed.

Lemma parseMSFHeader_negative_count (rt : GoRuntime) (hdr : MSFHeader)
    (rest : reader) :
  Magic hdr = msfSignature ->
  is_int32 (PageSize hdr) ->
  is_uint16 (FreePageMapPageNum hdr) ->
  is_uint16 (NPages hdr) ->
  StreamInfo_layout (StreamTblInfo hdr) ->
  PageSize hdr <> 0 ->
  ceil_div (Size (StreamTblInfo hdr)) (PageSize hdr) < 0 ->
  parseMSFHeader rt (encode_MSFHeader hdr ++ rest) = Panic PanicMakeSliceLen.
Proof.
  intros Hm Hp Hf Hn Hi Hps Hneg.
  destruct hdr as [magic ps fpm np info maps].
  cbn [Magic PageSize FreePageMapPageNum NPages StreamTblInfo PageNumMap] in *.
  subst magic. unfold encode_MSFHeader, parseMSFHeader.
  cbn [Magic PageSize FreePageMapPageNum NPages StreamTblInfo PageNumMap].
  rewrite <- !app_assoc.
  rewrite (read_full_app_n 44) by apply length_msfSignature. cbn [bind].
  rewrite bytes_eqb_refl. cbn [negb].
  rewrite (read_full_app_n 4) by (rewrite length_encode_int32; reflexivity).
  cbn [bind].
  rewrite (read_full_app_n 2) by (rewrite length_encode_uint16; reflexivity).
  cbn [bind].
  rewrite (read_full_app_n 2) by (rewrite length_encode_uint16; reflexivity).
  cbn [bind].
  rewrite (read_full_app_n 8) by (rewrite length_encode_StreamInfo; reflexivity).
  cbn [bind].
  rewrite decode_encode_int32, decode_encode_StreamInfo by assumption.
  rewrite npages_of_nonzero by exact Hps.
  unfold make_len.
  destruct (Z.ltb_spec (ceil_div (Size info) ps) 0); [reflexivity|lia].
Qed.

Section BadHeaders.

Context {PDBStream : Type}.
Variable rt : GoRuntime.
Variable parsePDBStream : File PDBStream -> reader -> result PDBStream.
Implicit Types (file : File PDBStream) (hdr : MSFHeader) (tbl : StreamTable).

(** X11.  A file that ends inside its header (its bytes are a proper prefix
    of the bytes of a well-formed header, whatever follows it) is rejected
    with an error, [io.EOF] or [io.ErrUnexpectedEOF]: [ParseFile] returns no
    file and does not panic. *)
Theorem ParseFile_truncated_header buf hdr rest (k : nat) :
  PageSize hdr <> 0 ->
  superblock_layout hdr ->
  (k < length (encode_MSFHeader hdr))%nat ->
  live buf = take k (encode_MSFHeader hdr ++ rest) ->
  exists e, ParseFile rt parsePDBStream buf = Err e /\ truncated_data e.
Proof.
  intros Hps Hl Hk Hbuf.
  destruct (parseMSFHeader_truncated rt hdr rest k Hps Hl Hk) as (e & He & Ht).
  exists e. split; [|exact Ht].
  unfold ParseFile, NewReader. cbn [Data]. rewrite Hbuf, He. reflexivity.
Qed.

(** X12.  A header whose page count for the stream table,
    [ceil (size / pageSize)], is negative (a size of [-pageSize] or less)
    makes [ParseFile] panic in [make] with a length out of range; no error
    is returned. *)
Theorem ParseFile_negative_page_count buf hdr rest :
  Magic hdr = msfSignature ->
  is_int32 (PageSize hdr) ->
  is_uint16 (FreePageMapPageNum hdr) ->
  is_uint16 (NPages hdr) ->
  StreamInfo_layout (StreamTblInfo hdr) ->
  PageSize hdr <> 0 ->
  ceil_div (Size (StreamTblInfo hdr)) (PageSize hdr) < 0 ->
  live buf = encode_MSFHeader hdr ++ rest ->
  ParseFile rt parsePDBStream buf = Panic PanicMakeSliceLen.
Proof.
  intros Hm Hp Hf Hn Hi Hps Hneg Hbuf.
  unfold ParseFile, NewReader. cbn [Data]. rewrite Hbuf.
  rewrite (parseMSFHeader_negative_count rt hdr rest) by assumption.
  reflexivity.
Qed.

Lemma parsePageNumMaps_negative_count file hdr done : forall infos si r',
  FileHdr file = Some hdr ->
  PageSize hdr <> 0 ->
  Forall StreamInfo_layout infos ->
  Forall2 (pageNumMap_layout (PageSize hdr)) (take (length done) infos) done ->
  infos !! length done = Some si ->
  ceil_div (Size si) (PageSize hdr) < 0 ->
  parsePageNumMaps rt file infos (concat (map encode_uint16s done) ++ r')
  = Panic PanicMakeSliceLen.
Proof.
  induction done as [|m done IH]; intros infos si r' Hh Hps HI HF Hsi Hneg.
  - destruct infos as [|s0 infos]; [discriminate Hsi|].
    cbn [length lookup list_lookup] in Hsi. injection Hsi as ->.
    cbn [map concat app parsePageNumMaps]. rewrite Hh.
    rewrite npages_of_nonzero by exact Hps. unfold make_len.
    destruct (Z.ltb_spec (ceil_div (Size si) (PageSize hdr)) 0); [reflexivity|lia].
  - destruct infos as [|s0 infos]; [discriminate Hsi|].
    cbn [length lookup list_lookup take] in Hsi, HF.
    inversion HI as [|? ? Hl HI']; subst.
    inversion HF as [|? ? ? ? [HU HL] HF']; subst.
    cbn [map concat parsePageNumMaps]. rewrite Hh.
    rewrite npages_of_nonzero by exact Hps.
    pose proof (ceil_div_bound (Size s0) (PageSize hdr) (proj1 Hl) Hps) as Hb.
    rewrite make_len_small by lia. cbn [bind].
    rewrite <- app_assoc.
    rewrite read_full_app_n by (rewrite length_encode_uint16s; lia).
    cbn [bind].
    rewrite (IH infos si r' Hh Hps HI' HF' Hsi Hneg). reflexivity.
Qed.

(** X13.  When decoding the stream table reaches the page numbers of a
    stream whose page count [ceil (size / pageSize)] is negative,
    [parseStreamTable] panics in [make] with a length out of range,
    whatever bytes follow; no error is returned. *)
Theorem parseStreamTable_negative_page_count file hdr r remaining need :
  FileHdr file = Some hdr ->
  PageSize hdr <> 0 ->
  directory_field (PageSize hdr) r remaining need ->
  need < 0 ->
  parseStreamTable rt file r = Panic PanicMakeSliceLen.
Proof.
  intros Hh Hps Hf Hneg. unfold parseStreamTable.
  destruct Hf as [r|b0 r1 L0|b0 b1 done si r' L0 L1 HF Hsi].
  - lia.
  - pose proof (decode_uint32_range b0 L0) as R0. unfold is_uint32 in R0. lia.
  - rewrite (read_full_app_n 4) by lia. cbn [bind].
    rewrite read_full_app_n by exact L1. cbn [bind].
    pose proof (decode_uint32_range b0 L0) as R0. unfold is_uint32 in R0.
    destruct (decode_StreamInfos_layout (Z.to_nat (decode_uint32 b0)) b1) as [HI _];
      [lia|].
    rewrite (parsePageNumMaps_negative_count file hdr done _ si r' Hh Hps HI HF Hsi)
      by lia.
    reflexivity.
Qed.

End BadHeaders.

(** ** What follows the parsed bytes *)

Lemma read_full_more (n : Z) (r : reader) (a : list byte) (r' extra : reader) :
  0 <= n -> read_full n r = Ok (a, r') ->
  read_full n (r ++ extra) = Ok (a, r' ++ extra).
Proof.
  intros Hn H. apply read_full_Ok in H; [|exact Hn]. destruct H as [-> Hlen].
  rewrite <- app_assoc. apply read_full_app_n. exact Hlen.
Qed.

(** X14.  [parseMSFHeader] reads the header and nothing else: bytes added
    after the input do not change the header it returns and are left unread
    behind it. *)
Theorem parseMSFHeader_more_input (rt : GoRuntime) (r : reader)
    (hdr : MSFHeader) (rest extra : reader) :
  parseMSFHeader rt r = Ok (hdr, rest) ->
  parseMSFHeader rt (r ++ extra) = Ok (hdr, rest ++ extra).
Proof.
  intros H. unfold parseMSFHeader in *.
  read_step H magic r1 E1.
  rewrite (read_full_more 44 r magic r1 extra) by (lia || exact E1). cbn [bind].
  destruct (bytes_eqb magic msfSignature); cbn [negb] in *; [|discriminate H].
  read_step H b1 r2 E2.
  rewrite (read_full_more 4 r1 b1 r2 extra) by (lia || exact E2). cbn [bind].
  read_step H b2 r3 E3.
  rewrite (read_full_more 2 r2 b2 r3 extra) by (lia || exact E3). cbn [bind].
  read_step H b3 r4 E4.
  rewrite (read_full_more 2 r3 b3 r4 extra) by (lia || exact E4). cbn [bind].
  read_step H b4 r5 E5.
  rewrite (read_full_more 8 r4 b4 r5 extra) by (lia || exact E5). cbn [bind].
  destruct (make_len 2 _) as [n| |] eqn:En; cbn [bind] in *; try discriminate H.
  apply make_len_Ok in En. destruct En as [Hn0 ->].
  read_step H b5 r6 E6.
  rewrite (read_full_more _ r5 b5 r6 extra) by (lia || exact E6). cbn [bind].
  injection H as <- <-. reflexivity.
Qed.

Section MoreInput.

Context {PDBStream : Type}.
Variable rt : GoRuntime.
Implicit Types (file : File PDBStream) (tbl : StreamTable).

Lemma parsePageNumMaps_more_input file infos : forall r maps rest extra,
  parsePageNumMaps rt file infos r = Ok (maps, rest) ->
  parsePageNumMaps rt file infos (r ++ extra) = Ok (maps, rest ++ extra).
Proof.
  induction infos as [|si infos IH]; intros r maps rest extra H.
  - cbn [parsePageNumMaps] in *. injection H as <- <-. reflexivity.
  - cbn [parsePageNumMaps] in *.
    destruct (FileHdr file) as [hdr|]; [|discriminate H].
    destruct (make_len 2 _) as [n| |] eqn:En; cbn [bind] in *; try discriminate H.
    apply make_len_Ok in En. destruct En as [Hn0 ->].
    read_step H b r1 E1.
    rewrite (read_full_more _ r b r1 extra) by (lia || exact E1). cbn [bind].
    destruct (parsePageNumMaps rt file infos r1) as [[maps' r2]| |] eqn:E2;
      cbn [bind] in H; try discriminate H.
    rewrite (IH r1 maps' r2 extra E2). cbn [bind].
    injection H as <- <-. reflexivity.
Qed.

(** X15.  [parseStreamTable] reads the stream table and nothing else: bytes
    added after the input (such as the slack of the last page) do not change
    the table it returns and are left unread behind it. *)
Theorem parseStreamTable_more_input file (r : reader) tbl (rest extra : reader) :
  parseStreamTable rt file r = Ok (tbl, rest) ->
  parseStreamTable rt file (r ++ extra) = Ok (tbl, rest ++ extra).
Proof.
  intros H. unfold parseStreamTable in *.
  read_step H b0 r1 E0.
  rewrite (read_full_more 4 r b0 r1 extra) by (lia || exact E0). cbn [bind].
  pose proof E0 as L0. apply read_full_Ok in L0; [|lia]. destruct L0 as [_ L0].
  pose proof (decode_uint32_range b0) as R0. unfold is_uint32 in R0.
  read_step H b1 r2 E1.
  rewrite (read_full_more _ r1 b1 r2 extra) by (lia || exact E1). cbn [bind].
  destruct (parsePageNumMaps rt file _ r2) as [[maps r3]| |] eqn:E2;
    cbn [bind] in H; try discriminate H.
  rewrite (parsePageNumMaps_more_input file _ r2 maps r3 extra E2). cbn [bind].
  injection H as <- <-. reflexivity.
Qed.

End MoreInput.

(** ** The further properties at the small container *)

Lemma readStreamData_negative_size_witness :
  readStreamData demo_rt
    (mkFile (PDBStream := list byte) (Some demo_hdr) (Some demo_fpm)
            (Some (mkStreamTable 1 [mkStreamInfo (-1) 0] [[]])) [] demo_buf)
    (Z.of_nat 0)
  = Panic PanicSliceBounds.
Proof.
  apply (readStreamData_negative_size demo_rt _ demo_hdr
           (mkStreamTable 1 [mkStreamInfo (-1) 0] [[]]) 0 (mkStreamInfo (-1) 0) []).
  - reflexivity.
  - reflexivity.
  - reflexivity.
  - reflexivity.
  - cbn [Size]. lia.
Defined.

Lemma readStreamData_page_beyond_buffer_witness :
  readStreamData demo_rt
    (mkFile (PDBStream := list byte) (Some demo_hdr) (Some demo_fpm)
            (Some (mkStreamTable 1 [mkStreamInfo 10 0] [[6]])) [] demo_buf)
    (Z.of_nat 0)
  = Panic PanicSliceBounds.
Proof.
  apply (readStreamData_page_beyond_buffer demo_rt _ demo_hdr
           (mkStreamTable 1 [mkStreamInfo 10 0] [[6]]) 0 (mkStreamInfo 10 0) [6]).
  - reflexivity.
  - reflexivity.
  - reflexivity.
  - reflexivity.
  - unfold is_int32. cbn [demo_hdr PageSize]. lia.
  - constructor; [unfold is_uint16; lia|constructor].
  - constructor. cbn [Data demo_hdr PageSize]. rewrite demo_cap. lia.
Defined.

Lemma readStreamTable_negative_size_witness :
  readStreamTable demo_rt
    (mkFile (PDBStream := list byte)
            (Some (mkMSFHeader msfSignature 64 1 6 (mkStreamInfo (-1) 0) []))
            None None [] demo_buf)
  = Panic PanicSliceBounds.
Proof.
  apply (readStreamTable_negative_size demo_rt _
           (mkMSFHeader msfSignature 64 1 6 (mkStreamInfo (-1) 0) [])).
  - reflexivity.
  - cbn [PageSize]. lia.
  - cbn [StreamTblInfo Size]. lia.
Defined.

Lemma ParseFile_free_page_map_panics_witness :
  ParseFile demo_rt failing_decoder
    (mkSlice (pad_to 64 (encode_MSFHeader
                (mkMSFHeader msfSignature 64 9 6 (mkStreamInfo 34 0) [2]))) [])
  = Panic PanicSliceBounds.
Proof.
  apply (ParseFile_free_page_map_panics demo_rt failing_decoder _
           (mkMSFHeader msfSignature 64 9 6 (mkStreamInfo 34 0) [2])
           (repeat x00 2)).
  - vm_compute. reflexivity.
  - right. vm_compute. reflexivity.
Defined.

Lemma ParseFile_invariants_witness :
  exists hdr tbl,
    FileHdr demo_file = Some hdr
    /\ StreamTbl demo_file = Some tbl
    /\ Data demo_file = demo_buf
    /\ Magic hdr = msfSignature
    /\ 0 <= PageSize hdr
    /\ is_uint32 (NStreams tbl)
    /\ Z.of_nat (length (StreamInfos tbl)) = NStreams tbl
    /\ Z.of_nat (length (PageNumMaps tbl)) = NStreams tbl
    /\ (PageSize hdr <> 0 ->
        superblock_layout hdr /\ directory_layout (PageSize hdr) tbl).
Proof.
  apply (ParseFile_invariants demo_rt failing_decoder demo_buf demo_file).
  vm_compute. reflexivity.
Defined.

Lemma ParseFile_streams_readable_witness :
  exists tbl,
    StreamTbl demo_file = Some tbl
    /\ forall i, 0 <= i < NStreams tbl ->
         exists si s,
           StreamInfos tbl !! Z.to_nat i = Some si
           /\ readStreamData demo_rt demo_file i = Ok s
           /\ len s = Size si
           /\ 0 <= Size si.
Proof.
  apply (ParseFile_streams_readable demo_rt failing_decoder demo_buf demo_file).
  vm_compute. reflexivity.
Defined.

Lemma ParseFile_Streams_witness :
  exists file0 tbl,
    header_stages demo_rt demo_buf file0
    /\ StreamTbl file0 = Some tbl
    /\ (demo_file = file0
        \/ exists s p,
             1 < NStreams tbl
             /\ readStreamData demo_rt file0 1 = Ok s
             /\ failing_decoder file0 (NewReader s) = Ok p
             /\ demo_file = mkFile (FileHdr file0) (FreePageMap file0)
                                   (StreamTbl file0) [p] (Data file0)).
Proof.
  apply (ParseFile_Streams demo_rt failing_decoder demo_buf demo_file).
  vm_compute. reflexivity.
Defined.

Lemma readStreamData_byte_witness :
  exists s,
    readStreamData demo_rt demo_file (Z.of_nat 1) = Ok s
    /\ forall j, 0 <= j < Size (mkStreamInfo 70 0) ->
         exists p,
           [5; 4] !! Z.to_nat (j / PageSize demo_hdr) = Some p
           /\ live s !! Z.to_nat j
              = live (Data demo_file)
                  !! Z.to_nat (p * PageSize demo_hdr + j mod PageSize demo_hdr).
Proof.
  apply (readStreamData_byte demo_rt demo_file demo_hdr demo_tbl 1
           (mkStreamInfo 70 0) [5; 4]).
  - exact demo_valid.
  - reflexivity.
  - reflexivity.
Defined.

Lemma readStreamData_consecutive_pages_witness :
  exists s,
    readStreamData demo_rt demo_file (Z.of_nat 0) = Ok s
    /\ live s
       = take (Z.to_nat (Size (mkStreamInfo 10 0)))
              (drop (Z.to_nat (3 * PageSize demo_hdr)) (live (Data demo_file))).
Proof.
  apply (readStreamData_consecutive_pages demo_rt demo_file demo_hdr demo_tbl 0
           (mkStreamInfo 10 0) 3 1).
  - exact demo_valid.
  - reflexivity.
  - reflexivity.
  - lia.
Defined.

Lemma ParseFile_truncated_header_witness :
  exists e,
    ParseFile demo_rt failing_decoder (mkSlice (take 50 demo_bytes) []) = Err e
    /\ truncated_data e.
Proof.
  apply (ParseFile_truncated_header demo_rt failing_decoder
           (mkSlice (take 50 demo_bytes) []) demo_hdr (drop 62 demo_bytes) 50).
  - cbn [demo_hdr PageSize]. lia.
  - exact demo_superblock_layout.
  - change (length (encode_MSFHeader demo_hdr)) with 62%nat. lia.
  - vm_compute. reflexivity.
Defined.

Lemma ParseFile_negative_page_count_witness :
  ParseFile demo_rt failing_decoder
    (mkSlice (encode_MSFHeader
                (mkMSFHeader msfSignature 4096 1 6 (mkStreamInfo (-5000) 0) [])
              ++ repeat x00 4) [])
  = Panic PanicMakeSliceLen.
Proof.
  apply (ParseFile_negative_page_count demo_rt failing_decoder _
           (mkMSFHeader msfSignature 4096 1 6 (mkStreamInfo (-5000) 0) [])
           (repeat x00 4)).
  - reflexivity.
  - unfold is_int32. cbn [PageSize]. lia.
  - unfold is_uint16. cbn [FreePageMapPageNum]. lia.
  - unfold is_uint16. cbn [NPages]. lia.
  - unfold StreamInfo_layout, is_int32. cbn [StreamTblInfo Size Unknown]. lia.
  - cbn [PageSize]. lia.
  - vm_compute. reflexivity.
  - reflexivity.
Defined.

Lemma parseStreamTable_negative_page_count_witness :
  parseStreamTable demo_rt demo_file
    (encode_uint32 1 ++ encode_StreamInfo (mkStreamInfo (-200) 0)
       ++ concat (map encode_uint16s []) ++ [])
  = Panic PanicMakeSliceLen.
Proof.
  apply (parseStreamTable_negative_page_count demo_rt demo_file demo_hdr _ []
           (2 * ceil_div (Size (mkStreamInfo (-200) 0)) (PageSize demo_hdr))).
  - reflexivity.
  - cbn [demo_hdr PageSize]. lia.
  - exact (field_pages 64 (encode_uint32 1)
             (encode_StreamInfo (mkStreamInfo (-200) 0)) [] (mkStreamInfo (-200) 0) []
             eq_refl eq_refl ltac:(constructor) eq_refl).
  - vm_compute. reflexivity.
Defined.

Lemma parseMSFHeader_more_input_witness :
  parseMSFHeader demo_rt (take 64 demo_bytes ++ [x01])
  = Ok (demo_hdr, repeat x00 2 ++ [x01]).
Proof.
  apply (parseMSFHeader_more_input demo_rt (take 64 demo_bytes) demo_hdr
           (repeat x00 2) [x01]).
  vm_compute. reflexivity.
Defined.

Lemma parseStreamTable_more_input_witness :
  parseStreamTable demo_rt demo_file (encode_StreamTable demo_tbl ++ repeat x00 30)
  = Ok (demo_tbl, [] ++ repeat x00 30).
Proof.
  apply (parseStreamTable_more_input demo_rt demo_file
           (encode_StreamTable demo_tbl) demo_tbl [] (repeat x00 30)).
  vm_compute. reflexivity.
Defined.

(** * The header, the streams and short files, stated on the format *)

(** ** The number of page indices of the header *)

Lemma ceiling_ceil_div (a b n : Z) :
  b <> 0 -> ceiling a b n <-> n = ceil_div a b.
Proof.
  intros Hb. unfold ceiling, ceil_div.
  pose proof (Z.div_mod (- a) b) as E.
  destruct (Z.lt_trichotomy b 0) as [Hneg|[H0|Hpos]]; [|lia|].
  - pose proof (Z.mod_neg_bound (- a) b Hneg) as R. split.
    + intros [[Hc _]|(_ & H1 & H2)]; [lia|]. nia.
    + intros ->. right. split; [exact Hneg|]. split; nia.
  - pose proof (Z.mod_pos_bound (- a) b Hpos) as R. split.
    + intros [(_ & H1 & H2)|[Hc _]]; [|lia]. nia.
    + intros ->. left. split; [exact Hpos|]. split; nia.
Qed.

Lemma superblock_format_layout (hdr : MSFHeader) :
  PageSize hdr <> 0 -> superblock_format hdr <-> superblock_layout hdr.
Proof.
  intros Hps. unfold superblock_format, superblock_layout.
  rewrite (ceiling_ceil_div _ _ _ Hps). reflexivity.
Qed.

(** C7.  [parseMSFHeader] succeeds exactly on the inputs that begin with a
    superblock laid out in the fixed order and widths of the format: the
    44-byte magic, the 4-byte signed page size, the 2-byte free-page-map page
    number, the 2-byte page count, the 8-byte stream-directory descriptor
    (4-byte size and 4-byte reserved field) and then exactly [n] 2-byte page
    indices, where [n] is [ceil (size / pageSize)], the integer with
    [n - 1 < size / pageSize <= n]; all little-endian.  It returns these
    fields and leaves the reader right behind the last page index, with no
    padding consumed. *)
Theorem parseMSFHeader_format (rt : GoRuntime) (r : reader)
    (hdr : MSFHeader) (rest : reader) :
  PageSize hdr <> 0 ->
  parseMSFHeader rt r = Ok (hdr, rest)
  <-> superblock_format hdr /\ r = encode_MSFHeader hdr ++ rest.
Proof.
  intros Hps. rewrite (superblock_format_layout hdr Hps). split.
  - apply parseMSFHeader_sound. exact Hps.
  - intros [Hl ->]. apply parseMSFHeader_complete; assumption.
Qed.

(** A stream table of 130 bytes in pages of 64: the parser reads three page
    indices, and the byte after them is left unread. *)
Lemma parseMSFHeader_format_witness :
  parseMSFHeader demo_rt (encode_MSFHeader three_page_hdr ++ [x07])
  = Ok (three_page_hdr, [x07]).
Proof.
  refine (proj2 (parseMSFHeader_format demo_rt
                   (encode_MSFHeader three_page_hdr ++ [x07])
                   three_page_hdr [x07] _) _).
  - cbn [three_page_hdr PageSize]. lia.
  - split; [|reflexivity].
    unfold superblock_format, StreamInfo_layout, ceiling, is_int32, is_uint16.
    cbn [three_page_hdr Magic PageSize FreePageMapPageNum NPages StreamTblInfo
         PageNumMap Size Unknown length].
    refine (conj eq_refl (conj _ (conj _ (conj _ (conj _ (conj _ _)))))).
    + lia.
    + lia.
    + lia.
    + lia.
    + repeat (constructor; [lia|]). constructor.
    + left. lia.
Defined.

Section Revisited.

Context {PDBStream : Type}.
Variable rt : GoRuntime.
Variable parsePDBStream : File PDBStream -> reader -> result PDBStream.
Implicit Types (file : File PDBStream) (hdr : MSFHeader) (tbl : StreamTable).

(** ** The bytes of one stream *)

(** C1, as the code has it.  In a container with a positive page size, take
    a stream number below the stream count whose page numbers each address a
    full page inside the buffer.  When the declared size is not negative and
    the pages of the stream hold that many bytes, [readStreamData] returns
    exactly as many bytes as declared: the pages of the stream's page number
    map, concatenated in the order of the map and cut to the declared size; a
    stream of size 0 yields no byte.  When the declared size is negative, as
    the size -1 of a deleted stream is, [readStreamData] panics with a
    slice-bounds run-time panic. *)
Theorem readStreamData_declared_size file hdr tbl (i : nat) si m :
  FileHdr file = Some hdr ->
  StreamTbl file = Some tbl ->
  0 < PageSize hdr ->
  cap (Data file) < 2 ^ 63 ->
  StreamInfos tbl !! i = Some si ->
  PageNumMaps tbl !! i = Some m ->
  Forall (page_in_buffer (PageSize hdr) (live (Data file))) m ->
  (0 <= Size si <= Z.of_nat (length m) * PageSize hdr ->
   exists s,
     readStreamData rt file (Z.of_nat i) = Ok s
     /\ len s = Size si
     /\ live s
        = take (Z.to_nat (Size si))
               (concat (map (page_bytes (PageSize hdr) (live (Data file))) m))
     /\ (Size si = 0 -> live s = []))
  /\ (Size si < 0 ->
      readStreamData rt file (Z.of_nat i) = Panic PanicSliceBounds).
Proof.
  intros Hh Ht Hps Hcap Hsi Hm Hpages.
  destruct (readStreamData_loop_pages rt file hdr m nil_slice Hh)
    as (acc & Hacc & Hlive); [lia|exact Hcap|exact Hpages|].
  cbn [nil_slice live app] in Hlive.
  assert (Hrun : readStreamData rt file (Z.of_nat i) = reslice acc 0 (Size si)).
  { unfold readStreamData. rewrite Ht.
    rewrite (index_lookup _ _ _ Hsi). cbn [bind].
    rewrite (index_lookup _ _ _ Hm). cbn [bind]. rewrite Hacc. reflexivity. }
  rewrite Hrun. split.
  - intros Hsz.
    destruct (reslice_within_len acc 0 (Size si)) as (s & Hs & Hl & Hk); [lia|lia| |].
    { unfold len. rewrite Hlive, length_concat_pages by (lia || exact Hpages). lia. }
    exists s.
    assert (Hlive' : live s
      = take (Z.to_nat (Size si))
             (concat (map (page_bytes (PageSize hdr) (live (Data file))) m))).
    { rewrite Hl, Z.sub_0_r. cbn [Z.to_nat drop]. rewrite Hlive. reflexivity. }
    refine (conj Hs (conj _ (conj Hlive' _))); [lia|].
    intros H0. rewrite Hlive', H0. reflexivity.
  - intros Hneg. apply reslice_out_of_cap. lia.
Qed.

(** ** Stream numbers beyond the stream count *)

(** C4, as the code has it.  In a file that [ParseFile] loaded,
    [readStreamData] of a stream number at or beyond the stream count
    returns no error: it panics with an index-out-of-range run-time panic at
    the lookup of the stream info.  The call takes the file and returns
    bytes only, and on the same file every stream number below the stream
    count is read, with exactly its declared size. *)
Theorem loaded_file_unknown_stream buf file :
  ParseFile rt parsePDBStream buf = Ok file ->
  exists tbl,
    StreamTbl file = Some tbl
    /\ (forall streamNum, NStreams tbl <= streamNum ->
          readStreamData rt file streamNum = Panic PanicIndex
          /\ forall e, readStreamData rt file streamNum <> Err e)
    /\ (forall i, 0 <= i < NStreams tbl ->
          exists si s,
            StreamInfos tbl !! Z.to_nat i = Some si
            /\ readStreamData rt file i = Ok s
            /\ len s = Size si).
Proof.
  intros H. destruct (ParseFile_Ok rt parsePDBStream buf file H)
    as (f0 & tbl & Hst & Ht & Hloop).
  destruct (ParseFile_loop_Ok rt parsePDBStream _ _ _ _ Hloop) as (G1 & G2 & G3 & G4).
  assert (HN : is_uint32 (NStreams tbl)
               /\ Z.of_nat (length (StreamInfos tbl)) = NStreams tbl).
  { destruct Hst as (hdr & rest & fpmData & tblData & tbl' & rest' & _ & _ & _ & H4 & ->).
    cbn [StreamTbl] in Ht. injection Ht as ->.
    apply (parseStreamTable_counts rt _ _ _ _ H4). }
  destruct HN as [HN HL]. unfold is_uint32 in HN.
  assert (Ht' : StreamTbl file = Some tbl) by congruence.
  exists tbl. refine (conj Ht' (conj _ _)).
  - intros streamNum Hge.
    assert (E : readStreamData rt file streamNum = Panic PanicIndex).
    { unfold readStreamData. rewrite Ht'.
      rewrite index_out_of_range by lia. reflexivity. }
    split; [exact E|]. intros e. rewrite E. discriminate.
  - intros i Hi.
    destruct (ParseFile_loop_reads rt parsePDBStream _ _ _ _ Hloop i) as [s Hs]; [lia|].
    assert (Hs' : readStreamData rt file i = Ok s).
    { rewrite <- Hs. apply readStreamData_ext; assumption. }
    destruct (readStreamData_Ok rt file i s Hs') as (tbl' & si & Ht'' & Hsi & Hlen).
    assert (tbl' = tbl) by congruence. subst tbl'.
    exists si, s. repeat split; assumption.
Qed.

(** ** A stream table larger than the file *)

Lemma readPage_in_capacity file hdr pageNum :
  FileHdr file = Some hdr ->
  0 <= PageSize hdr ->
  cap (Data file) < 2 ^ 63 ->
  page_in_buffer (PageSize hdr) (live (Data file) ++ spare (Data file)) pageNum ->
  exists s,
    readPage file pageNum = Ok s
    /\ live s
       = page_bytes (PageSize hdr) (live (Data file) ++ spare (Data file)) pageNum.
Proof.
  intros Hh Hps Hcap [Hp Hin]. unfold cap in Hcap.
  assert (H0 : 0 <= pageNum * PageSize hdr) by nia.
  rewrite (readPage_no_wrap file hdr pageNum Hh) by (unfold is_int; lia).
  unfold reslice, cap.
  destruct (Z.leb_spec 0 (pageNum * PageSize hdr)); [|lia].
  destruct (Z.leb_spec (pageNum * PageSize hdr)
              (pageNum * PageSize hdr + PageSize hdr)); [|lia].
  destruct (Z.leb_spec (pageNum * PageSize hdr + PageSize hdr)
              (Z.of_nat (length (live (Data file) ++ spare (Data file))))); [|lia].
  cbn [andb]. eexists. split; [reflexivity|]. cbn [live]. unfold page_bytes.
  f_equal. lia.
Qed.

Lemma readStreamTable_loop_capacity file hdr post pre acc :
  FileHdr file = Some hdr ->
  0 <= PageSize hdr ->
  cap (Data file) < 2 ^ 63 ->
  Forall (page_in_buffer (PageSize hdr) (live (Data file) ++ spare (Data file)))
         post ->
  exists s,
    readStreamTable_loop rt file (pre ++ post) (length post)
      (Z.of_nat (length pre)) acc = Ok s
    /\ live s = live acc
         ++ concat (map (page_bytes (PageSize hdr)
                           (live (Data file) ++ spare (Data file))) post).
Proof.
  intros Hh Hps Hcap HF. revert pre acc.
  induction HF as [|p post Hp Hpost IH]; intros pre acc.
  - exists acc. split; [reflexivity|]. cbn [map concat]. rewrite app_nil_r. reflexivity.
  - cbn [length readStreamTable_loop].
    rewrite (index_lookup (pre ++ p :: post) (length pre) p)
      by apply list_lookup_middle, eq_refl.
    cbn [bind].
    destruct (readPage_in_capacity file hdr p Hh Hps Hcap Hp) as (pg & Hpg & Hlive).
    rewrite Hpg. cbn [bind].
    destruct (IH (pre ++ [p]) (append rt acc (live pg))) as (s & Hs & Hl).
    rewrite <- app_assoc, length_app in Hs. cbn [app length] in Hs.
    replace (Z.of_nat (length pre) + 1) with (Z.of_nat (length pre + 1)) by lia.
    exists s. split; [exact Hs|].
    rewrite Hl, live_append, Hlive. cbn [map concat].
    rewrite <- app_assoc. reflexivity.
Qed.

Lemma readStreamTable_capacity file hdr :
  FileHdr file = Some hdr ->
  0 < PageSize hdr ->
  0 <= Size (StreamTblInfo hdr) ->
  cap (Data file) < 2 ^ 63 ->
  Z.of_nat (length (PageNumMap hdr))
    = ceil_div (Size (StreamTblInfo hdr)) (PageSize hdr) ->
  Forall (page_in_buffer (PageSize hdr) (live (Data file) ++ spare (Data file)))
         (PageNumMap hdr) ->
  exists s,
    readStreamTable rt file = Ok s
    /\ len s = Size (StreamTblInfo hdr)
    /\ live s
       = take (Z.to_nat (Size (StreamTblInfo hdr)))
              (concat (map (page_bytes (PageSize hdr)
                              (live (Data file) ++ spare (Data file)))
                           (PageNumMap hdr))).
Proof.
  intros Hh Hps Hsz Hcap Hcnt HF.
  destruct (readStreamTable_loop_capacity file hdr (PageNumMap hdr) [] nil_slice Hh)
    as (acc & Hacc & Hlive); [lia|exact Hcap|exact HF|].
  cbn [app length nil_slice live] in Hacc, Hlive.
  assert (Hfit : Size (StreamTblInfo hdr) <= len acc).
  { unfold len. rewrite Hlive, length_concat_pages by (lia || exact HF).
    rewrite Hcnt.
    pose proof (ceil_div_spec (Size (StreamTblInfo hdr)) (PageSize hdr) Hps). lia. }
  destruct (reslice_within_len acc 0 (Size (StreamTblInfo hdr)))
    as (s & Hs & Hl & Hk); [lia|lia|exact Hfit|].
  exists s. unfold readStreamTable. rewrite Hh.
  rewrite npages_of_nonzero by lia. rewrite <- Hcnt, Nat2Z.id.
  change (Z.of_nat 0) with 0 in Hacc. rewrite Hacc. cbn [bind].
  split; [exact Hs|]. split; [lia|].
  rewrite Hl, Z.sub_0_r. cbn [Z.to_nat drop]. rewrite Hlive. reflexivity.
Qed.

(** C5, as the code has it.  Decoding the stream table fails with a
    recoverable error, [io.EOF] or [io.ErrUnexpectedEOF], whenever fewer
    bytes remain than the next declared field requires: the stream count,
    the stream infos, or the page numbers of a stream.  A stream table whose
    declared size exceeds the bytes of the file in its pages is not
    reported.  When its pages lie within the capacity of the buffer,
    [readStreamTable] returns the declared number of bytes, taking what the
    file lacks from the spare capacity of the buffer behind the end of the
    file, and the decoding goes on with these bytes; when one of its pages
    reaches beyond the capacity, [readStreamTable] panics with a
    slice-bounds run-time panic. *)
Theorem stream_table_short_input file hdr :
  FileHdr file = Some hdr ->
  superblock_layout hdr ->
  0 < PageSize hdr ->
  cap (Data file) < 2 ^ 63 ->
  (forall r remaining need,
     directory_field (PageSize hdr) r remaining need ->
     Z.of_nat (length remaining) < need ->
     exists e, parseStreamTable rt file r = Err e /\ truncated_data e)
  /\ (0 <= Size (StreamTblInfo hdr) ->
      Forall (page_in_buffer (PageSize hdr)
                (live (Data file) ++ spare (Data file))) (PageNumMap hdr) ->
      exists s,
        readStreamTable rt file = Ok s
        /\ len s = Size (StreamTblInfo hdr)
        /\ live s
           = take (Z.to_nat (Size (StreamTblInfo hdr)))
                  (concat (map (page_bytes (PageSize hdr)
                                  (live (Data file) ++ spare (Data file)))
                               (PageNumMap hdr))))
  /\ (Exists (fun p => cap (Data file) < p * PageSize hdr + PageSize hdr)
             (PageNumMap hdr) ->
      readStreamTable rt file = Panic PanicSliceBounds).
Proof.
  intros Hh Hlayout Hps Hcap.
  pose proof Hlayout as (_ & Rps & _ & _ & _ & HU & HL).
  refine (conj _ (conj _ _)).
  - intros r remaining need Hf Hshort.
    apply (parseStreamTable_short rt file hdr r remaining need); [exact Hh|lia| |];
      assumption.
  - intros Hsz HF. apply readStreamTable_capacity; assumption.
  - intros HE. unfold readStreamTable. rewrite Hh.
    rewrite npages_of_nonzero by lia. rewrite <- HL, Nat2Z.id.
    pose proof (readStreamTable_loop_panics rt file hdr (PageNumMap hdr) [] nil_slice
                  Hh Rps HU HE) as Hp.
    cbn [app length] in Hp. change (Z.of_nat 0) with 0 in Hp.
    rewrite Hp. reflexivity.
Qed.

End Revisited.

(** ** These theorems at the small containers *)

Lemma readStreamData_declared_size_witness :
  (0 <= Size (mkStreamInfo 70 0) <= Z.of_nat (length [5; 4]) * PageSize demo_hdr ->
   exists s,
     readStreamData demo_rt demo_file (Z.of_nat 1) = Ok s
     /\ len s = Size (mkStreamInfo 70 0)
     /\ live s
        = take (Z.to_nat (Size (mkStreamInfo 70 0)))
               (concat (map (page_bytes (PageSize demo_hdr) (live (Data demo_file)))
                            [5; 4]))
     /\ (Size (mkStreamInfo 70 0) = 0 -> live s = []))
  /\ (Size (mkStreamInfo 70 0) < 0 ->
      readStreamData demo_rt demo_file (Z.of_nat 1) = Panic PanicSliceBounds).
Proof.
  apply (readStreamData_declared_size demo_rt demo_file demo_hdr demo_tbl 1
           (mkStreamInfo 70 0) [5; 4]).
  - reflexivity.
  - reflexivity.
  - cbn [demo_hdr PageSize]. lia.
  - cbn [demo_file Data]. rewrite demo_cap. lia.
  - reflexivity.
  - reflexivity.
  - constructor; [apply (demo_page_in_buffer 5); lia|].
    constructor; [apply (demo_page_in_buffer 4); lia|constructor].
Defined.

Lemma nil_stream_header_stages :
  header_stages demo_rt nil_stream_buf nil_stream_file.
Proof.
  exists nil_stream_hdr, (drop 62 nil_stream_bytes),
    (mkSlice (xf0 :: repeat xff 63) (drop 128 (nil_stream_bytes ++ repeat x00 256))),
    (mkSlice (encode_StreamTable nil_stream_tbl) (repeat x00 42)),
    nil_stream_tbl, [].
  repeat split; vm_compute; reflexivity.
Qed.

(** A container with a deleted stream.  Its header and stream table are
    parsed, stream number 1 is below the stream count, and every page number
    of its page number maps addresses a full page inside the buffer; yet
    [readStreamData] of stream 1 returns no bytes: it panics, and so does
    the load. *)
Lemma readStreamData_nil_stream_panics :
  header_stages demo_rt nil_stream_buf nil_stream_file
  /\ StreamTbl nil_stream_file = Some nil_stream_tbl
  /\ 0 <= 1 < NStreams nil_stream_tbl
  /\ Forall (Forall (page_in_buffer (PageSize nil_stream_hdr) (live nil_stream_buf)))
            (PageNumMaps nil_stream_tbl)
  /\ readStreamData demo_rt nil_stream_file 1 = Panic PanicSliceBounds
  /\ ~ (exists s, readStreamData demo_rt nil_stream_file 1 = Ok s)
  /\ ParseFile demo_rt failing_decoder nil_stream_buf = Panic PanicSliceBounds.
Proof.
  assert (E : readStreamData demo_rt nil_stream_file 1 = Panic PanicSliceBounds)
    by (vm_compute; reflexivity).
  refine (conj nil_stream_header_stages
            (conj eq_refl (conj _ (conj _ (conj E (conj _ _)))))).
  - cbn [nil_stream_tbl NStreams]. lia.
  - cbn [nil_stream_tbl PageNumMaps nil_stream_hdr PageSize nil_stream_buf live].
    constructor; [|constructor; [constructor|constructor]].
    constructor; [|constructor].
    unfold page_in_buffer.
    change (Z.of_nat (length nil_stream_bytes)) with 256. lia.
  - intros [s Hs]. rewrite E in Hs. discriminate Hs.
  - vm_compute. reflexivity.
Qed.

Lemma loaded_file_unknown_stream_witness :
  exists tbl,
    StreamTbl demo_file = Some tbl
    /\ (forall streamNum, NStreams tbl <= streamNum ->
          readStreamData demo_rt demo_file streamNum = Panic PanicIndex
          /\ forall e, readStreamData demo_rt demo_file streamNum <> Err e)
    /\ (forall i, 0 <= i < NStreams tbl ->
          exists si s,
            StreamInfos tbl !! Z.to_nat i = Some si
            /\ readStreamData demo_rt demo_file i = Ok s
            /\ len s = Size si).
Proof.
  apply (loaded_file_unknown_stream demo_rt failing_decoder demo_buf demo_file).
  vm_compute. reflexivity.
Defined.

Lemma stream_table_short_input_witness :
  (forall r remaining need,
     directory_field (PageSize demo_hdr) r remaining need ->
     Z.of_nat (length remaining) < need ->
     exists e,
       parseStreamTable demo_rt
         (mkFile (PDBStream := list byte) (Some demo_hdr) None None [] truncated_buf) r
       = Err e
       /\ truncated_data e)
  /\ (0 <= Size (StreamTblInfo demo_hdr) ->
      Forall (page_in_buffer (PageSize demo_hdr)
                (live truncated_buf ++ spare truncated_buf)) (PageNumMap demo_hdr) ->
      exists s,
        readStreamTable demo_rt
          (mkFile (PDBStream := list byte) (Some demo_hdr) None None [] truncated_buf)
        = Ok s
        /\ len s = Size (StreamTblInfo demo_hdr)
        /\ live s
           = take (Z.to_nat (Size (StreamTblInfo demo_hdr)))
                  (concat (map (page_bytes (PageSize demo_hdr)
                                  (live truncated_buf ++ spare truncated_buf))
                               (PageNumMap demo_hdr))))
  /\ (Exists (fun p => cap truncated_buf < p * PageSize demo_hdr + PageSize demo_hdr)
             (PageNumMap demo_hdr) ->
      readStreamTable demo_rt
        (mkFile (PDBStream := list byte) (Some demo_hdr) None None [] truncated_buf)
      = Panic PanicSliceBounds).
Proof.
  apply (stream_table_short_input demo_rt
           (mkFile (PDBStream := list byte) (Some demo_hdr) None None [] truncated_buf)
           demo_hdr).
  - reflexivity.
  - exact demo_superblock_layout.
  - cbn [demo_hdr PageSize]. lia.
  - cbn [Data]. change (cap truncated_buf) with 512. lia.
Defined.

(** The stream table read from the cut container: the ten bytes the file
    has on page 2, then bytes of the spare capacity. *)
Example truncated_stream_table :
  readStreamTable demo_rt
    (mkFile (PDBStream := list byte) (Some demo_hdr) None None [] truncated_buf)
  = Ok (mkSlice (take 10 (encode_StreamTable demo_tbl) ++ repeat x00 24)
                (repeat x00 30)).
Proof. vm_compute. reflexivity. Qed.

(** The small container cut off ten bytes into the page of its stream table:
    the header declares 34 bytes of stream table on page 2 and the file has
    10 of them.  The load returns no error: it returns a file, whose stream
    table was decoded from the ten bytes and the zeroes behind the end of
    the file. *)
Lemma ParseFile_short_directory_loads :
  (exists rest, parseMSFHeader demo_rt (NewReader truncated_buf) = Ok (demo_hdr, rest))
  /\ PageNumMap demo_hdr = [2]
  /\ len truncated_buf - 2 * PageSize demo_hdr < Size (StreamTblInfo demo_hdr)
  /\ (exists file,
        ParseFile demo_rt failing_decoder truncated_buf = Ok file
        /\ StreamTbl file
           = Some (mkStreamTable 3
                     [mkStreamInfo 10 0; mkStreamInfo 0 0; mkStreamInfo 0 0]
                     [[0]; []; []]))
  /\ ~ (exists e, ParseFile demo_rt failing_decoder truncated_buf = Err e).
Proof.
  destruct (ParseFile demo_rt failing_decoder truncated_buf) as [file|e|p] eqn:E.
  - refine (conj _ (conj eq_refl (conj _ (conj _ _)))).
    + eexists. vm_compute. reflexivity.
    + vm_compute. reflexivity.
    + exists file. split; [reflexivity|].
      revert E. vm_compute. intros [= <-]. reflexivity.
    + intros [e He]. discriminate He.
  - exfalso. revert E. vm_compute. discriminate.
  - exfalso. revert E. vm_compute. discriminate.
Qed.
